(** * Hugo front end: chat session, dashboard snapshot and shell view

  A shallow embedding of the three React components of the front end
  ([App], [ChatInterface], [Dashboard]) and the proofs of the properties
  their specification states about them.

  Each component is modelled as the state its [useState] hooks hold plus
  the asynchronous work it has started; the environment drives it with
  events (a key press, a click, a promise settling).  JavaScript values,
  property reads that may throw, promises and the wall clock are modelled
  explicitly in [JS]. *)

From Stdlib Require Import ZArith NArith Ascii String.
From stdpp Require Import base tactics option list.

#[local] Set Warnings "-register-all".

Local Open Scope N_scope.

(* ===================================================================== *)
(** ** JavaScript values, strings and promises                            *)
(* ===================================================================== *)

Module JS.

(** A JavaScript string is a sequence of UTF-16 code units. *)
Abbreviation jsstring := (list N).

(** A string literal of the source (all of them are ASCII). *)
Definition lit (s : string) : jsstring :=
  N_of_ascii <$> list_ascii_of_string s.
Arguments lit : simpl never.

(** The values that reach the components: what [JSON.parse] produces,
    plus [undefined].  Numbers are carried opaquely (no component
    computes with them); only integral ones are represented. *)
Inductive value :=
| VUndefined
| VNull
| VBool (b : bool)
| VNum (n : Z)
| VStr (s : jsstring)
| VArr (items : list value)
| VObj (fields : list (jsstring * value)).

(** What a [throw] or a rejected promise carries. *)
Inductive exn :=
| TypeError
| Reason (v : value).

(** Completion of a synchronous expression. *)
Inductive completion (A : Type) :=
| Normal (a : A)
| Throw (e : exn).
Arguments Normal {A} a.
Arguments Throw {A} e.

Definition bind {A B} (c : completion A) (k : A -> completion B)
  : completion B :=
  match c with
  | Normal a => k a
  | Throw e => Throw e
  end.

(** A settled promise. *)
Inductive settled (A : Type) :=
| Fulfilled (a : A)
| Rejected (e : exn).
Arguments Fulfilled {A} a.
Arguments Rejected {A} e.

(** [await p] inside a [try]: a rejection is rethrown. *)
Definition await {A} (p : settled A) : completion A :=
  match p with
  | Fulfilled a => Normal a
  | Rejected e => Throw e
  end.

(** [new Date()]: the wall clock, in milliseconds since the epoch.  The
    environment supplies the reading with the event that triggers it. *)
Abbreviation Date := N.

(** ToBoolean. *)
Definition truthy (v : value) : bool :=
  match v with
  | VUndefined | VNull => false
  | VBool b => b
  | VNum n => negb (n =? 0)%Z
  | VStr s => match s with [] => false | _ => true end
  | VArr _ | VObj _ => true
  end.

(** Own property of an object literal, first binding of the key. *)
Fixpoint own_property (k : jsstring) (fs : list (jsstring * value))
  : option value :=
  match fs with
  | [] => None
  | (k', v) :: fs' => if decide (k = k') then Some v else own_property k fs'
  end.

(** [v.k] for a key [k] that is not a built-in property of strings,
    arrays or numbers (the keys read by the components are field names of
    the backend's JSON): reading from [undefined] or [null] throws a
    TypeError, an absent key reads as [undefined]. *)
Definition get (v : value) (k : jsstring) : completion value :=
  match v with
  | VUndefined | VNull => Throw TypeError
  | VObj fs => Normal (default VUndefined (own_property k fs))
  | VBool _ | VNum _ | VStr _ | VArr _ => Normal VUndefined
  end.

(** WhiteSpace and LineTerminator code points of ECMAScript, the ones
    [String.prototype.trim] strips. *)
Definition isWhiteSpace (c : N) : bool :=
  (c =? 0x9) || (c =? 0xA) || (c =? 0xB) || (c =? 0xC) || (c =? 0xD)
  || (c =? 0x20) || (c =? 0xA0) || (c =? 0x1680)
  || ((0x2000 <=? c) && (c <=? 0x200A))
  || (c =? 0x2028) || (c =? 0x2029) || (c =? 0x202F) || (c =? 0x205F)
  || (c =? 0x3000) || (c =? 0xFEFF).

Fixpoint trimStart (s : jsstring) : jsstring :=
  match s with
  | [] => []
  | c :: s' => if isWhiteSpace c then trimStart s' else s
  end.

Definition trimEnd (s : jsstring) : jsstring :=
  reverse (trimStart (reverse s)).

Definition trim (s : jsstring) : jsstring := trimEnd (trimStart s).

(** A string is blank when it is empty or made of white space only. *)
Definition blank (s : jsstring) : bool := forallb isWhiteSpace s.

End JS.

(** The part of an axios response the components read. *)
Module Axios.
Record response := { data : JS.value }.
End Axios.

(* ===================================================================== *)
(** ** ChatInterface: the chat session                                    *)
(* ===================================================================== *)

Module ChatInterface.
Import JS.

Inductive Role := user | assistant.

(** A chat message.  [data] and [error] are keys that only some of the
    object literals of the source carry: [None] is an absent key. *)
Record Message := {
  role : Role;
  content : value;
  timestamp : Date;
  data : option value;
  error : option bool
}.

(** The three [useState] cells of the component. *)
Record State := {
  messages : list Message;
  input : jsstring;
  loading : bool
}.

Definition greeting : jsstring :=
  lit "Hi! I'm Hugo, your AI procurement assistant for Voltway. I can help you with inventory analysis, build capacity calculations, supplier performance, and more. What would you like to know?".

Definition seed (now : Date) : Message :=
  {| role := assistant; content := VStr greeting; timestamp := now;
     data := None; error := None |}.

Definition initial (now : Date) : State :=
  {| messages := [seed now]; input := []; loading := false |}.

(** The body of the POST to [/api/chat]. *)
Record Request := { question : jsstring }.

(** A mounted component: its state, the requests it has issued that have
    not settled yet (oldest first), and what it wrote to the console. *)
Record Session := {
  ui : State;
  inflight : list Request;
  console : list exn
}.

Definition mount (now : Date) : Session :=
  {| ui := initial now; inflight := []; console := [] |}.

Definition userMessage (text : jsstring) (now : Date) : Message :=
  {| role := user; content := VStr text; timestamp := now;
     data := None; error := None |}.

Definition assistantMessage (response : Axios.response) (now : Date)
  : completion Message :=
  bind (get (Axios.data response) (lit "answer")) (fun answer =>
  bind (get (Axios.data response) (lit "data")) (fun d =>
  Normal {| role := assistant; content := answer; timestamp := now;
            data := Some d; error := None |})).

Definition errorText : jsstring :=
  lit "Sorry, I encountered an error processing your request. Please try again.".

Definition errorMessage (now : Date) : Message :=
  {| role := assistant; content := VStr errorText; timestamp := now;
     data := None; error := Some true |}.

(** [setMessages(prev => [...prev, m])]. *)
Definition append_message (m : Message) (s : State) : State :=
  {| messages := messages s ++ [m]; input := input s; loading := loading s |}.

Definition setInput (text : jsstring) (s : State) : State :=
  {| messages := messages s; input := text; loading := loading s |}.

Definition setLoading (b : bool) (s : State) : State :=
  {| messages := messages s; input := input s; loading := b |}.

(** [handleSend] up to its [await]: the guard, the three state updates
    and the request. *)
Definition handleSend (now : Date) (c : Session) : Session :=
  let s := ui c in
  if negb (truthy (VStr (trim (input s)))) || loading s then c
  else
    {| ui := setLoading true
               (setInput [] (append_message (userMessage (input s) now) s));
       inflight := inflight c ++ [{| question := input s |}];
       console := console c |}.

(** [handleSend] from its [await] on, once the request has settled: the
    rest of the [try] block, the [catch] block and the [finally] block. *)
Definition handleSend_resume (now : Date) (outcome : settled Axios.response)
  (s : State) (log : list exn) : State * list exn :=
  match bind (await outcome) (fun response => assistantMessage response now) with
  | Normal m => (setLoading false (append_message m s), log)
  | Throw e => (setLoading false (append_message (errorMessage now) s), log ++ [e])
  end.

Definition Enter : jsstring := lit "Enter".

(** What the environment can do to a mounted component. *)
Inductive event :=
| Change (text : jsstring)
| ExampleClick (question : jsstring)
| KeyPress (key : jsstring) (shiftKey : bool) (now : Date)
| SendClick (now : Date)
| Settle (k : nat) (outcome : settled Axios.response) (now : Date).

Definition with_ui (f : State -> State) (c : Session) : Session :=
  {| ui := f (ui c); inflight := inflight c; console := console c |}.

Definition step (c : Session) (e : event) : Session :=
  match e with
  | Change text => with_ui (setInput text) c
  | ExampleClick q => with_ui (setInput q) c
  | KeyPress key shiftKey now =>
      if bool_decide (key = Enter) && negb shiftKey then handleSend now c else c
  | SendClick now => handleSend now c
  | Settle k outcome now =>
      match inflight c !! k with
      | Some _ =>
          let '(s, log) := handleSend_resume now outcome (ui c) (console c) in
          {| ui := s; inflight := delete k (inflight c); console := log |}
      | None => c
      end
  end.

Definition run (c : Session) (evs : list event) : Session :=
  foldl step c evs.

(** The two phases of the specification's state machine. *)
Inductive Phase := Idle | Awaiting.

Definition phase (c : Session) : Phase :=
  if loading (ui c) then Awaiting else Idle.

(** At most one request is in flight, and exactly when [loading] is set. *)
Definition gate (c : Session) : Prop :=
  length (inflight c) = if loading (ui c) then 1%nat else 0%nat.

(** An event that makes [handleSend] pass its guard. *)
Definition accepted_send (c : Session) (e : event) : bool :=
  match e with
  | KeyPress key shiftKey _ =>
      bool_decide (key = Enter) && negb shiftKey
      && negb (negb (truthy (VStr (trim (input (ui c))))) || loading (ui c))
  | SendClick _ =>
      negb (negb (truthy (VStr (trim (input (ui c))))) || loading (ui c))
  | _ => false
  end.

(** An event that completes a send cycle: a request in flight settles. *)
Definition completes_send (c : Session) (e : event) : bool :=
  match e with
  | Settle k _ _ => bool_decide (is_Some (inflight c !! k))
  | _ => false
  end.

(** How many events of [evs], run from [c], satisfy [p]. *)
Fixpoint count_events (p : Session -> event -> bool) (c : Session)
  (evs : list event) : nat :=
  match evs with
  | [] => 0
  | e :: evs' => (if p c e then 1 else 0) + count_events p (step c e) evs'
  end.

Definition completed_cycles := count_events completes_send.
Definition accepted_sends := count_events accepted_send.

(** The request succeeded with [answer] and [d]: the promise fulfilled
    and the two fields could be read off the response body. *)
Definition succeeded (outcome : settled Axios.response) (answer d : value)
  : Prop :=
  exists response,
    outcome = Fulfilled response /\
    get (Axios.data response) (lit "answer") = Normal answer /\
    get (Axios.data response) (lit "data") = Normal d.

(** The request failed: the promise rejected, or it fulfilled with a body
    ([null] or nothing) no field can be read off. *)
Definition failed (outcome : settled Axios.response) : Prop :=
  (exists e, outcome = Rejected e) \/
  (exists response,
     outcome = Fulfilled response /\
     (Axios.data response = VNull \/ Axios.data response = VUndefined)).

(** The render condition of the example questions,
    [messages.length === 1]. *)
Definition examples_visible (s : State) : bool :=
  bool_decide (length (messages s) = 1%nat).

End ChatInterface.

(* ===================================================================== *)
(** ** Dashboard: the dashboard snapshot                                  *)
(* ===================================================================== *)

Module Dashboard.
Import JS.

(** The single [useState] cell of the component. *)
Record State := {
  alerts : value;
  inventory : value;
  stockoutRisks : value;
  suppliers : value;
  loading : bool
}.

Definition initial : State :=
  {| alerts := VArr []; inventory := VNull; stockoutRisks := VArr [];
     suppliers := VArr []; loading := true |}.

(** The two ways the effect calls [setData]: with a new object, or with
    the updater [prev => ({ ...prev, loading: false })]. *)
Inductive setData_arg :=
| NewSnapshot (s : State)
| ClearLoading.

Definition clear_loading (prev : State) : State :=
  {| alerts := alerts prev; inventory := inventory prev;
     stockoutRisks := stockoutRisks prev; suppliers := suppliers prev;
     loading := false |}.

Definition setData (a : setData_arg) (prev : State) : State :=
  match a with
  | NewSnapshot s => s
  | ClearLoading => clear_loading prev
  end.

(** The four requests, in the order of the array given to [Promise.all]:
    [/api/alerts], [/api/inventory-summary], [/api/stockout-risks],
    [/api/supplier-performance]. *)
Inductive endpoint :=
| getAlerts
| getInventorySummary
| getStockoutRisks
| getSupplierPerformance.

#[global] Instance endpoint_eq_dec : EqDecision endpoint.
Proof. solve_decision. Defined.

Definition index (e : endpoint) : nat :=
  match e with
  | getAlerts => 0
  | getInventorySummary => 1
  | getStockoutRisks => 2
  | getSupplierPerformance => 3
  end.

(** [Promise.all] over four promises: until it settles it holds the
    values of the promises fulfilled so far, by index. *)
Inductive all_state :=
| AllPending (values : list (option Axios.response))
| AllSettled.

(** A mounted component: its state, which of the four requests have
    settled, the state of the [Promise.all] the effect awaits, the calls
    made to [setData] and the console. *)
Record Mounted := {
  state : State;
  settled_requests : list bool;
  all : all_state;
  setData_calls : list setData_arg;
  console : list exn
}.

Definition mount (s : State) : Mounted :=
  {| state := s;
     settled_requests := [false; false; false; false];
     all := AllPending [None; None; None; None];
     setData_calls := [];
     console := [] |}.

(** The object literal given to [setData] in the [try] block, from the
    array [Promise.all] fulfilled with. *)
Definition snapshot (results : list Axios.response) : completion State :=
  match results with
  | [alertsRes; invRes; risksRes; suppRes] =>
      bind (get (Axios.data alertsRes) (lit "alerts")) (fun a =>
      bind (get (Axios.data risksRes) (lit "risks")) (fun r =>
      bind (get (Axios.data suppRes) (lit "suppliers")) (fun s =>
      Normal {| alerts := a; inventory := Axios.data invRes;
                stockoutRisks := r; suppliers := s; loading := false |})))
  | _ => Throw TypeError
  end.

(** [fetchDashboardData] from its [await] on, once [Promise.all] has
    settled: the rest of the [try] block, or the [catch] block. *)
Definition fetchDashboardData_resume (joined : settled (list Axios.response))
  (m : Mounted) : Mounted :=
  match bind (await joined) snapshot with
  | Normal s =>
      {| state := setData (NewSnapshot s) (state m);
         settled_requests := settled_requests m;
         all := all m;
         setData_calls := setData_calls m ++ [NewSnapshot s];
         console := console m |}
  | Throw e =>
      {| state := setData ClearLoading (state m);
         settled_requests := settled_requests m;
         all := all m;
         setData_calls := setData_calls m ++ [ClearLoading];
         console := console m ++ [e] |}
  end.

Definition set_all (a : all_state) (m : Mounted) : Mounted :=
  {| state := state m; settled_requests := settled_requests m; all := a;
     setData_calls := setData_calls m; console := console m |}.

Definition mark_settled (i : nat) (m : Mounted) : Mounted :=
  {| state := state m; settled_requests := <[i:=true]> (settled_requests m);
     all := all m; setData_calls := setData_calls m; console := console m |}.

(** All slots filled: the array [Promise.all] fulfils with. *)
Fixpoint all_values (vs : list (option Axios.response))
  : option (list Axios.response) :=
  match vs with
  | [] => Some []
  | Some v :: vs' => cons v <$> all_values vs'
  | None :: _ => None
  end.

(** The reaction of [Promise.all] to one of its promises settling. *)
Definition all_react (i : nat) (outcome : settled Axios.response)
  (m : Mounted) : Mounted :=
  match all m with
  | AllSettled => m
  | AllPending values =>
      match outcome with
      | Rejected e => fetchDashboardData_resume (Rejected e) (set_all AllSettled m)
      | Fulfilled r =>
          let values' := <[i:=Some r]> values in
          match all_values values' with
          | Some results =>
              fetchDashboardData_resume (Fulfilled results) (set_all AllSettled m)
          | None => set_all (AllPending values') m
          end
      end
  end.

(** Request [e] settles.  A promise settles once: a second settlement of
    the same request does nothing. *)
Inductive event := Settle (e : endpoint) (outcome : settled Axios.response).

Definition step (m : Mounted) (ev : event) : Mounted :=
  match ev with
  | Settle e outcome =>
      match settled_requests m !! index e with
      | Some false => all_react (index e) outcome (mark_settled (index e) m)
      | _ => m
      end
  end.

Definition run (m : Mounted) (evs : list event) : Mounted :=
  foldl step m evs.

(** The states the component goes through, the first one included. *)
Fixpoint trace (m : Mounted) (evs : list event) : list Mounted :=
  match evs with
  | [] => [m]
  | ev :: evs' => m :: trace (step m ev) evs'
  end.

(** [Promise.all] has not settled yet. *)
Definition pending (m : Mounted) : bool :=
  match all m with
  | AllPending _ => true
  | AllSettled => false
  end.

(** The successive readings of the loading flag along a schedule. *)
Definition loading_readings (m : Mounted) (evs : list event) : list bool :=
  (fun m' => loading (state m')) <$> trace m evs.

(** How often a sequence of readings of a flag goes from [true] to
    [false], and from [false] to [true]. *)
Fixpoint falls (bs : list bool) : nat :=
  match bs with
  | b :: (b' :: _) as bs' => (if b && negb b' then 1 else 0) + falls bs'
  | _ => 0
  end.

Fixpoint rises (bs : list bool) : nat :=
  match bs with
  | b :: (b' :: _) as bs' => (if negb b && b' then 1 else 0) + rises bs'
  | _ => 0
  end.

Definition target (ev : event) : endpoint :=
  match ev with Settle e _ => e end.

(** A schedule in which each of the four requests settles. *)
Definition complete (evs : list event) : Prop :=
  forall e : endpoint, exists ev, ev ∈ evs /\ target ev = e.

(** The first settlement of request [e] in a schedule. *)
Fixpoint outcome_of (e : endpoint) (evs : list event)
  : option (settled Axios.response) :=
  match evs with
  | [] => None
  | Settle e' o :: evs' =>
      if decide (e' = e) then Some o else outcome_of e evs'
  end.

Definition fulfilled (e : endpoint) (evs : list event) : Prop :=
  exists r, outcome_of e evs = Some (Fulfilled r).

Definition rejected (e : endpoint) (evs : list event) : Prop :=
  exists err, outcome_of e evs = Some (Rejected err).

(** *** The effect, seen from the settlements so far

    What the mounted component must look like once the four requests
    have settled as [a0] to [a3] say ([None]: not settled yet). *)

Definition is_settled (a : option (settled Axios.response)) : bool :=
  match a with Some _ => true | None => false end.

Definition is_rejected (a : option (settled Axios.response)) : bool :=
  match a with Some (Rejected _) => true | _ => false end.

Definition value_of (a : option (settled Axios.response))
  : option Axios.response :=
  match a with Some (Fulfilled r) => Some r | _ => None end.

(** The state and the one call to [setData] after [Promise.all] has
    fulfilled with [results]. *)
Definition commit_or_catch (prev : State) (results : list Axios.response)
  : State * list setData_arg :=
  match snapshot results with
  | Normal s => (s, [NewSnapshot s])
  | Throw _ => (clear_loading prev, [ClearLoading])
  end.

Definition consistent (prev : State)
  (a0 a1 a2 a3 : option (settled Axios.response)) (m : Mounted) : Prop :=
  settled_requests m = [is_settled a0; is_settled a1; is_settled a2; is_settled a3] /\
  match all m with
  | AllPending values =>
      values = [value_of a0; value_of a1; value_of a2; value_of a3] /\
      is_rejected a0 || is_rejected a1 || is_rejected a2 || is_rejected a3 = false /\
      is_settled a0 && is_settled a1 && is_settled a2 && is_settled a3 = false /\
      state m = prev /\ setData_calls m = []
  | AllSettled =>
      (is_rejected a0 || is_rejected a1 || is_rejected a2 || is_rejected a3 = true /\
       state m = clear_loading prev /\ setData_calls m = [ClearLoading])
      \/
      match value_of a0, value_of a1, value_of a2, value_of a3 with
      | Some r0, Some r1, Some r2, Some r3 =>
          (state m, setData_calls m) = commit_or_catch prev [r0; r1; r2; r3]
      | _, _, _, _ => False
      end
  end.

(** The first settlement of [e] after one more event. *)
Definition first_settlement (e : endpoint) (ev : event)
  (a : option (settled Axios.response)) : option (settled Axios.response) :=
  match a with
  | Some o => Some o
  | None => match ev with
            | Settle e' o => if decide (e' = e) then Some o else None
            end
  end.

(** *** The stock-out table *)

Section StockoutTable.

(** [String.prototype.toLowerCase], a function of the runtime. *)
Variable toLowerCase : jsstring -> jsstring.

(** [u.toLowerCase()]: only a string has the method. *)
Definition call_toLowerCase (u : value) : completion jsstring :=
  match u with
  | VStr s => Normal (toLowerCase s)
  | _ => Throw TypeError
  end.

(** A table row: its key, the three cell contents and the class of the
    status pill. *)
Record Row := {
  key : nat;
  description : value;
  days_until_stockout : value;
  className : jsstring;
  urgency : value
}.

(** The arrow function given to [map]. *)
Definition risk_row (risk : value) (i : nat) : completion Row :=
  bind (get risk (lit "description")) (fun d =>
  bind (get risk (lit "days_until_stockout")) (fun n =>
  bind (get risk (lit "urgency")) (fun u =>
  bind (call_toLowerCase u) (fun lower =>
  bind (get risk (lit "urgency")) (fun u' =>
  Normal {| key := i; description := d; days_until_stockout := n;
            className := lit "status-pill " ++ lower; urgency := u' |}))))).

(** [Array.prototype.slice(0, 6)] followed by the lookup of [map]: only
    an array has both. *)
Definition slice_0_6 (v : value) : completion (list value) :=
  match v with
  | VArr items => Normal (take 6 items)
  | _ => Throw TypeError
  end.

(** [Array.prototype.map] with a callback that may throw, from index [i]
    on. *)
Fixpoint map_from (f : value -> nat -> completion Row) (i : nat)
  (items : list value) : completion (list Row) :=
  match items with
  | [] => Normal []
  | x :: items' =>
      bind (f x i) (fun y =>
      bind (map_from f (S i) items') (fun ys => Normal (y :: ys)))
  end.

(** The rows of the stock-out table,
    [data.stockoutRisks.slice(0, 6).map((risk, i) => ...)]. *)
Definition stockout_rows (s : State) : completion (list Row) :=
  bind (slice_0_6 (stockoutRisks s)) (map_from risk_row 0).

End StockoutTable.

End Dashboard.

(* ===================================================================== *)
(** ** App: the shell view                                                *)
(* ===================================================================== *)

Module App.
Import JS.

Inductive Tab := chat | dashboard.

(** The two [useState] cells of the component. *)
Record State := {
  activeTab : Tab;
  status : value
}.

Definition initial : State := {| activeTab := chat; status := VNull |}.

(** A mounted component: its state and the console. *)
Record Mounted := {
  state : State;
  console : list exn
}.

Definition mount : Mounted := {| state := initial; console := [] |}.

(** What [fetch] resolves with: the HTTP status, which the component does
    not read, and what [res.json()] settles with. *)
Record Response := {
  http_status : N;
  json : settled value
}.

(** An asynchronous computation over the mounted component. *)
Definition Async (A : Type) : Type := Mounted -> Mounted * settled A.

(** [p.then(f)]. *)
Definition then_ {A B} (p : Async A) (f : A -> Async B) : Async B :=
  fun m =>
    match p m with
    | (m', Fulfilled a) => f a m'
    | (m', Rejected e) => (m', Rejected e)
    end.

(** [p.catch(h)]. *)
Definition catch_ {A} (p : Async A) (h : exn -> Async A) : Async A :=
  fun m =>
    match p m with
    | (m', Fulfilled a) => (m', Fulfilled a)
    | (m', Rejected e) => h e m'
    end.

(** [fetch('/api/health')], settling as the environment decides. *)
Definition fetch (outcome : settled Response) : Async Response :=
  fun m => (m, outcome).

Definition res_json (res : Response) : Async value :=
  fun m => (m, json res).

Definition setStatus (data : value) : Async unit :=
  fun m =>
    ({| state := {| activeTab := activeTab (state m); status := data |};
        console := console m |}, Fulfilled tt).

Definition console_error (err : exn) : Async unit :=
  fun m => ({| state := state m; console := console m ++ [err] |}, Fulfilled tt).

(** The promise chain of the effect. *)
Definition check_health (outcome : settled Response) : Async unit :=
  catch_
    (then_ (then_ (fetch outcome) res_json) setStatus)
    console_error.

Definition setActiveTab (t : Tab) (m : Mounted) : Mounted :=
  {| state := {| activeTab := t; status := status (state m) |};
     console := console m |}.

(** The render condition of the warning banner,
    [status && !status.agents_initialized]. *)
Definition banner (s : State) : completion bool :=
  if truthy (status s)
  then bind (get (status s) (lit "agents_initialized")) (fun a =>
       Normal (negb (truthy a)))
  else Normal false.

Definition banner_visible (s : State) : bool :=
  match banner s with
  | Normal b => b
  | Throw _ => false
  end.

(** A payload of the shape the backend documents for [/api/health]: an
    object whose [agents_initialized] is a boolean. *)
Definition HealthStatus (v : value) (agentsInitialized : bool) : Prop :=
  exists fields,
    v = VObj fields /\
    own_property (lit "agents_initialized") fields = Some (VBool agentsInitialized).

(** The health fetch succeeded with payload [v]: [fetch] resolved and the
    body parsed. *)
Definition retrieved (outcome : settled Response) (v : value) : Prop :=
  exists res, outcome = Fulfilled res /\ json res = Fulfilled v.

Definition failed (outcome : settled Response) : Prop :=
  (exists e, outcome = Rejected e) \/
  (exists res e, outcome = Fulfilled res /\ json res = Rejected e).

End App.

(* ===================================================================== *)
(** ** Concrete scenarios                                                 *)
(* ===================================================================== *)

Module Scenarios.
Import JS.

Definition an_alert : value :=
  VObj [(lit "severity", VStr (lit "critical"));
        (lit "alert_type", VStr (lit "stockout"));
        (lit "message", VStr (lit "Battery pack below safety stock"));
        (lit "action_required", VStr (lit "Expedite order"))].

Definition an_inventory_summary : value :=
  VObj [(lit "low_stock_count", VNum 3);
        (lit "total_stock_value", VNum 125000)].

Definition a_risk (n : Z) : value :=
  VObj [(lit "description", VStr (lit "Battery pack"));
        (lit "days_until_stockout", VNum n);
        (lit "urgency", VStr (lit "HIGH"))].

Definition a_supplier : value :=
  VObj [(lit "Supplier_Name", VStr (lit "Acme"));
        (lit "On_Time_Rate", VNum 97);
        (lit "Lead_Time_Days", VNum 12)].

Definition alerts_response : Axios.response :=
  {| Axios.data := VObj [(lit "alerts", VArr [an_alert])] |}.

Definition inventory_response : Axios.response :=
  {| Axios.data := an_inventory_summary |}.

Definition risks_response : Axios.response :=
  {| Axios.data := VObj [(lit "risks", VArr [a_risk 2])] |}.

Definition suppliers_response : Axios.response :=
  {| Axios.data := VObj [(lit "suppliers", VArr [a_supplier])] |}.

Definition network_error : exn := Reason (VStr (lit "Network Error")).

(** The supplier request fails, after the other three have succeeded. *)
Definition supplier_failure : list Dashboard.event :=
  [Dashboard.Settle Dashboard.getAlerts (Fulfilled alerts_response);
   Dashboard.Settle Dashboard.getInventorySummary (Fulfilled inventory_response);
   Dashboard.Settle Dashboard.getStockoutRisks (Fulfilled risks_response);
   Dashboard.Settle Dashboard.getSupplierPerformance (Rejected network_error)].

(** All four requests succeed, the last one issued settling first. *)
Definition all_succeed : list Dashboard.event :=
  [Dashboard.Settle Dashboard.getSupplierPerformance (Fulfilled suppliers_response);
   Dashboard.Settle Dashboard.getAlerts (Fulfilled alerts_response);
   Dashboard.Settle Dashboard.getStockoutRisks (Fulfilled risks_response);
   Dashboard.Settle Dashboard.getInventorySummary (Fulfilled inventory_response)].

(** Eight risk rows, numbered by their days until stock-out. *)
Definition eight_risks : list value :=
  [a_risk 1; a_risk 2; a_risk 3; a_risk 4; a_risk 5; a_risk 6; a_risk 7; a_risk 8].

Definition dashboard_with_eight_risks : Dashboard.State :=
  {| Dashboard.alerts := VArr []; Dashboard.inventory := VNull;
     Dashboard.stockoutRisks := VArr eight_risks;
     Dashboard.suppliers := VArr []; Dashboard.loading := false |}.

(** [toLowerCase] restricted to the ASCII letters. *)
Definition ascii_toLowerCase (s : jsstring) : jsstring :=
  (fun c => if (0x41 <=? c) && (c <=? 0x5A) then c + 0x20 else c) <$> s.

Definition health_response (body : value) : App.Response :=
  {| App.http_status := 200; App.json := Fulfilled body |}.

End Scenarios.

(* ===================================================================== *)
(** ** ChatInterface: what is rendered, and the clock                     *)
(* ===================================================================== *)

Module ChatView.
Import JS ChatInterface.

Definition EXAMPLE_QUESTIONS : list jsstring :=
  [lit "How many S2_V1 scooters can we build right now?";
   lit "Which materials are running low on stock?";
   lit "What's our current inventory value?";
   lit "Show me supplier performance";
   lit "What are the critical alerts I should know about?";
   lit "Calculate build capacity for all scooter models"].

(** The string a role is in the source. *)
Definition role_name (r : Role) : jsstring :=
  match r with
  | user => lit "user"
  | assistant => lit "assistant"
  end.

Inductive Icon := UserIcon | BotIcon.

(** [message.data]: [undefined] when the key is absent. *)
Definition message_data (message : Message) : value :=
  default VUndefined (data message).

(** One entry of the message list: its key and class, the avatar, the
    text, the content of the "View Data" block when there is one, and the
    time shown. *)
Record MessageView := {
  view_key : nat;
  view_className : jsstring;
  view_avatar : Icon;
  view_text : value;
  view_data : option jsstring;
  view_time : jsstring
}.

(** What the component renders. *)
Record View := {
  message_views : list MessageView;
  typing_indicator : bool;
  examples : option (list jsstring);
  textarea_value : jsstring;
  textarea_disabled : bool;
  send_disabled : bool
}.

Section Render.

(** [JSON.stringify(v, null, 2)] and [Date.prototype.toLocaleTimeString],
    functions of the runtime. *)
Variable JSON_stringify : value -> jsstring.
Variable toLocaleTimeString : Date -> jsstring.

(** The arrow function given to [messages.map]. *)
Definition message_view (message : Message) (index : nat) : MessageView :=
  {| view_key := index;
     view_className := lit "message " ++ role_name (role message);
     view_avatar := match role message with
                    | user => UserIcon
                    | assistant => BotIcon
                    end;
     view_text := content message;
     view_data := if truthy (message_data message)
                  then Some (JSON_stringify (message_data message))
                  else None;
     view_time := toLocaleTimeString (timestamp message) |}.

Definition render (s : State) : View :=
  {| message_views := imap (fun index message => message_view message index)
                           (messages s);
     typing_indicator := loading s;
     examples := if bool_decide (length (messages s) = 1%nat)
                 then Some EXAMPLE_QUESTIONS else None;
     textarea_value := input s;
     textarea_disabled := loading s;
     send_disabled := negb (truthy (VStr (trim (input s)))) || loading s |}.

End Render.

(** The clock reading an event comes with. *)
Definition event_time (e : event) : option Date :=
  match e with
  | KeyPress _ _ now | SendClick now | Settle _ _ now => Some now
  | Change _ | ExampleClick _ => None
  end.

Definition clock_readings (evs : list event) : list Date :=
  omap event_time evs.

(** The readings never go back, starting from [t]. *)
Fixpoint nondecreasing_from (t : Date) (ts : list Date) : bool :=
  match ts with
  | [] => true
  | t' :: ts' => (t <=? t') && nondecreasing_from t' ts'
  end.

(** The messages that carry the error flag. *)
Definition error_messages (s : State) : list Message :=
  filter (fun m => error m = Some true) (messages s).

(** The role the message at position [i] of a transcript must have. *)
Definition role_at (i : nat) : Role :=
  if Nat.even i then assistant else user.

End ChatView.

(* ===================================================================== *)
(** ** Dashboard: what is rendered                                        *)
(* ===================================================================== *)

Module DashboardView.
Import JS Dashboard.

(** [v.length]. *)
Definition length_of (v : value) : completion value :=
  match v with
  | VUndefined | VNull => Throw TypeError
  | VArr items => Normal (VNum (Z.of_nat (length items)))
  | VStr s => Normal (VNum (Z.of_nat (length s)))
  | VObj fs => Normal (default VUndefined (own_property (lit "length") fs))
  | VBool _ | VNum _ => Normal VUndefined
  end.

Definition nullish (v : value) : bool :=
  match v with
  | VUndefined | VNull => true
  | _ => false
  end.

(** [v?.k]. *)
Definition optional_get (v : value) (k : jsstring) : completion value :=
  if nullish v then Normal VUndefined else get v k.

(** [a || b] with [b] a constant. *)
Definition or_else (a b : value) : value := if truthy a then a else b.

(** An alert of the list: key, class, and the four texts shown. *)
Record AlertItem := {
  alert_key : nat;
  alert_className : jsstring;
  alert_severity : value;
  alert_type : value;
  alert_message : value;
  alert_action : value
}.

(** A supplier card: key, name, width of the progress bar, and the two
    figures shown. *)
Record SupplierCard := {
  card_key : nat;
  card_name : value;
  card_width : jsstring;
  card_on_time_rate : value;
  card_lead_time : value
}.

(** What the component renders: the placeholder, or the four figures of
    the top cards, the alert list, the rows of the stock-out table and the
    supplier cards. *)
Inductive View :=
| LoadingState
| Board (activeAlerts lowStockItems inventoryValue activeSuppliers : value)
        (alert_items : list AlertItem) (risk_rows : list Row)
        (supplier_cards : list SupplierCard).

(** [Array.prototype.map] with a callback that may throw, from index [i]
    on. *)
Fixpoint map_with_index {A : Type} (f : value -> nat -> completion A)
  (i : nat) (items : list value) : completion (list A) :=
  match items with
  | [] => Normal []
  | x :: items' =>
      bind (f x i) (fun y =>
      bind (map_with_index f (S i) items') (fun ys => Normal (y :: ys)))
  end.

(** [v.map(f)]: only an array has the method. *)
Definition array_map {A : Type} (f : value -> nat -> completion A)
  (v : value) : completion (list A) :=
  match v with
  | VArr items => map_with_index f 0 items
  | _ => Throw TypeError
  end.

Section Render.

(** Functions of the runtime: [String.prototype.toLowerCase], the string
    conversion of a template literal, and the method call
    [x.toLocaleString()] on a value that is neither [null] nor
    [undefined]. *)
Variable toLowerCase : jsstring -> jsstring.
Variable ToString : value -> completion jsstring.
Variable toLocaleString : value -> completion value.

(** The arrow function given to [data.alerts.map]. *)
Definition alert_item (alert : value) (i : nat) : completion AlertItem :=
  bind (get alert (lit "severity")) (fun sev =>
  bind (ToString sev) (fun cls =>
  bind (get alert (lit "severity")) (fun sev' =>
  bind (get alert (lit "alert_type")) (fun ty =>
  bind (get alert (lit "message")) (fun msg =>
  bind (get alert (lit "action_required")) (fun act =>
  Normal {| alert_key := i; alert_className := lit "alert-item " ++ cls;
            alert_severity := sev'; alert_type := ty;
            alert_message := msg; alert_action := act |})))))).

(** The arrow function given to [data.suppliers.map]. *)
Definition supplier_card (s : value) (i : nat) : completion SupplierCard :=
  bind (get s (lit "Supplier_Name")) (fun name =>
  bind (get s (lit "On_Time_Rate")) (fun rate =>
  bind (ToString rate) (fun w =>
  bind (get s (lit "On_Time_Rate")) (fun rate' =>
  bind (get s (lit "Lead_Time_Days")) (fun days =>
  Normal {| card_key := i; card_name := name; card_width := w ++ lit "%";
            card_on_time_rate := rate'; card_lead_time := days |}))))).

(** [data.inventory?.low_stock_count || 0]. *)
Definition low_stock_items (s : State) : completion value :=
  bind (optional_get (inventory s) (lit "low_stock_count")) (fun n =>
  Normal (or_else n (VNum 0))).

(** [data.inventory?.total_stock_value?.toLocaleString()]. *)
Definition inventory_value (s : State) : completion value :=
  bind (optional_get (inventory s) (lit "total_stock_value")) (fun v =>
  if nullish v then Normal VUndefined else toLocaleString v).

Definition render (s : State) : completion View :=
  if loading s then Normal LoadingState
  else
    bind (length_of (alerts s)) (fun n_alerts =>
    bind (low_stock_items s) (fun low =>
    bind (inventory_value s) (fun val =>
    bind (length_of (suppliers s)) (fun n_suppliers =>
    bind (array_map alert_item (alerts s)) (fun items =>
    bind (stockout_rows toLowerCase s) (fun rows =>
    bind (array_map supplier_card (suppliers s)) (fun cards =>
    Normal (Board n_alerts low val n_suppliers items rows cards)))))))).

End Render.

End DashboardView.

(* ===================================================================== *)
(** ** The page: the shell and the view it mounts                         *)
(* ===================================================================== *)

Module Shell.
Import JS.

(** The shell, whether its health check is still pending, and the child
    component mounted under it: [ChatInterface] on the chat tab,
    [Dashboard] on the dashboard tab.  A component that is not rendered is
    unmounted and its state is gone.

    The record follows the page as long as every render returns.  The
    shell has no error boundary: a render that throws makes React unmount
    the whole tree, and from then on nothing is mounted and no click is
    taken.  That end of the page is not represented; the record then still
    holds the views mounted last, so what it holds bounds from above what
    is mounted on the page. *)
Record Page := {
  app : App.Mounted;
  health_pending : bool;
  chatInterface : option ChatInterface.Session;
  dashboard : option Dashboard.Mounted
}.

(** The page as first displayed, at time [now]. *)
Definition mount (now : Date) : Page :=
  {| app := App.mount; health_pending := true;
     chatInterface := Some (ChatInterface.mount now);
     dashboard := None |}.

Definition tab_eqb (a b : App.Tab) : bool :=
  match a, b with
  | App.chat, App.chat | App.dashboard, App.dashboard => true
  | _, _ => false
  end.

(** What the environment can do to the page: click a tab, settle the
    health check, act on the chat, settle a request of the dashboard. *)
Inductive event :=
| TabClick (t : App.Tab) (now : Date)
| HealthSettles (outcome : settled App.Response)
| Chat (e : ChatInterface.event)
| Dash (e : Dashboard.event).

Definition step (p : Page) (ev : event) : Page :=
  match ev with
  | TabClick t now =>
      if tab_eqb t (App.activeTab (App.state (app p))) then p
      else
        {| app := App.setActiveTab t (app p);
           health_pending := health_pending p;
           chatInterface :=
             match t with
             | App.chat => Some (ChatInterface.mount now)
             | App.dashboard => None
             end;
           dashboard :=
             match t with
             | App.chat => None
             | App.dashboard => Some (Dashboard.mount Dashboard.initial)
             end |}
  | HealthSettles outcome =>
      if health_pending p
      then {| app := fst (App.check_health outcome (app p));
              health_pending := false;
              chatInterface := chatInterface p;
              dashboard := dashboard p |}
      else p
  | Chat e =>
      {| app := app p; health_pending := health_pending p;
         chatInterface := (fun c => ChatInterface.step c e) <$> chatInterface p;
         dashboard := dashboard p |}
  | Dash e =>
      {| app := app p; health_pending := health_pending p;
         chatInterface := chatInterface p;
         dashboard := (fun m => Dashboard.step m e) <$> dashboard p |}
  end.

Definition run (p : Page) (evs : list event) : Page := foldl step p evs.

(** The view of the tab that is not active is not mounted. *)
Definition inactive_view_unmounted (p : Page) : Prop :=
  match App.activeTab (App.state (app p)) with
  | App.chat => dashboard p = None
  | App.dashboard => chatInterface p = None
  end.

(** The health outcome the page has taken in, if any. *)
Fixpoint health_outcome (evs : list event) : option (settled App.Response) :=
  match evs with
  | [] => None
  | HealthSettles o :: _ => Some o
  | _ :: evs' => health_outcome evs'
  end.

(** The last tab clicked, [App.chat] when none was. *)
Definition last_tab (evs : list event) : App.Tab :=
  foldl (fun t ev => match ev with TabClick t' _ => t' | _ => t end)
        App.chat evs.

End Shell.

(* ===================================================================== *)
(** ** The reply of the health check                                      *)
(* ===================================================================== *)

Module Fetch.

(** [Response.ok]: the status is in the range 200 to 299. *)
Definition ok (res : App.Response) : bool :=
  (200 <=? App.http_status res) && (App.http_status res <=? 299).

(** A reply with status 200 whose body has no [agents_initialized]. *)
Definition reply_without_flag : JS.settled App.Response :=
  JS.Fulfilled
    {| App.http_status := 200;
       App.json := JS.Fulfilled
         (JS.VObj [(JS.lit "status", JS.VStr (JS.lit "healthy"))]) |}.

(** A reply with status 500 and a JSON error body. *)
Definition error_reply : JS.settled App.Response :=
  JS.Fulfilled
    {| App.http_status := 500;
       App.json := JS.Fulfilled
         (JS.VObj [(JS.lit "detail",
                    JS.VStr (JS.lit "Internal Server Error"))]) |}.

(** A reply with status 200 and a health status not yet initialised. *)
Definition initializing_reply : JS.settled App.Response :=
  JS.Fulfilled
    {| App.http_status := 200;
       App.json := JS.Fulfilled
         (JS.VObj [(JS.lit "status", JS.VStr (JS.lit "healthy"));
                   (JS.lit "agents_initialized", JS.VBool false)]) |}.

End Fetch.

(* ===================================================================== *)
(** ** Facts about strings                                                *)
(* ===================================================================== *)

Module JSFacts.
Import JS.

Lemma trimStart_blank (s : jsstring) : blank (trimStart s) = blank s.
Proof.
  induction s as [|c s IH]; simpl; [done|].
  destruct (isWhiteSpace c) eqn:Hc; simpl; [by rewrite IH | by rewrite Hc].
Qed.

Lemma trimStart_nil (s : jsstring) : trimStart s = [] <-> blank s = true.
Proof.
  induction s as [|c s IH]; simpl; [done|].
  destruct (isWhiteSpace c); simpl; [done | split; discriminate].
Qed.

Lemma blank_reverse (s : jsstring) : blank (reverse s) = blank s.
Proof.
  unfold blank. induction s as [|c s IH]; [done|].
  rewrite reverse_cons, forallb_app, IH. simpl.
  rewrite andb_true_r. apply andb_comm.
Qed.

(** [s.trim()] is the empty string exactly when [s] is blank. *)
Lemma trim_nil (s : jsstring) : trim s = [] <-> blank s = true.
Proof.
  unfold trim, trimEnd.
  rewrite <- (trimStart_blank s), <- (blank_reverse (trimStart s)).
  rewrite <- trimStart_nil. split.
  - intros H. apply (f_equal reverse) in H. by rewrite reverse_involutive in H.
  - intros ->. done.
Qed.

(** The guard [!input.trim()] of [handleSend]. *)
Lemma not_truthy_trim (s : jsstring) :
  negb (truthy (VStr (trim s))) = blank s.
Proof.
  destruct (blank s) eqn:Hb.
  - apply trim_nil in Hb. by rewrite Hb.
  - destruct (trim s) eqn:Ht; [|done].
    apply trim_nil in Ht. congruence.
Qed.

(** A property can be read off any value but [null] and [undefined],
    whatever the key. *)
Lemma get_normal_any_key (v : value) (k k' : jsstring) (x : value) :
  get v k = Normal x -> exists y, get v k' = Normal y.
Proof. destruct v; simpl; intros H; inversion H; eauto. Qed.

End JSFacts.

(* ===================================================================== *)
(** ** The chat session: proofs                                           *)
(* ===================================================================== *)

Module ChatFacts.
Import JS ChatInterface.

Lemma run_after_event (c : Session) (evs : list event) (e : event) :
  run c (evs ++ [e]) = step (run c evs) e.
Proof. unfold run. by rewrite foldl_app. Qed.

(** The guard of [handleSend], in the words of the specification. *)
Lemma handleSend_guard (now : Date) (c : Session) :
  handleSend now c =
    if blank (input (ui c)) || loading (ui c) then c
    else
      {| ui := {| messages := messages (ui c) ++ [userMessage (input (ui c)) now];
                  input := []; loading := true |};
         inflight := inflight c ++ [{| question := input (ui c) |}];
         console := console c |}.
Proof. unfold handleSend. by rewrite JSFacts.not_truthy_trim. Qed.

(** The message a settling request appends. *)
Lemma handleSend_resume_spec (now : Date) (o : settled Axios.response)
  (s : State) (log : list exn) :
  exists m log',
    handleSend_resume now o s log =
      ({| messages := messages s ++ [m]; input := input s; loading := false |},
       log') /\
    role m = assistant /\ timestamp m = now /\
    (forall answer d, succeeded o answer d ->
       content m = answer /\ data m = Some d /\ error m = None) /\
    (failed o -> m = errorMessage now).
Proof.
  unfold handleSend_resume, succeeded, failed.
  destruct o as [r|e]; simpl.
  - unfold assistantMessage.
    destruct (get (Axios.data r) (lit "answer")) as [a|e] eqn:Ha; simpl.
    + destruct (JSFacts.get_normal_any_key _ _ (lit "data") _ Ha) as [d Hd].
      rewrite Hd. simpl. eexists _, _. split; [done|]. simpl.
      split; [done|]. split; [done|]. split.
      * intros a' d' (r' & Hr & Ha' & Hd'). simplify_eq.
        split_and!; congruence.
      * intros [[e He]|(r' & Hr & Hn)]; [done|]. simplify_eq.
        destruct Hn as [Hn|Hn]; rewrite Hn in Ha; done.
    + eexists _, _. split; [done|]. simpl.
      split; [done|]. split; [done|]. split; [|done].
      intros a' d' (r' & Hr & Ha' & Hd'). simplify_eq. congruence.
  - eexists _, _. split; [done|]. simpl.
    split; [done|]. split; [done|]. split; [|done].
    intros a' d' (r' & Hr & _). done.
Qed.

(** Every outcome of a request is a success or a failure. *)
Lemma succeeded_or_failed (o : settled Axios.response) :
  failed o \/ exists answer d, succeeded o answer d.
Proof.
  unfold failed, succeeded. destruct o as [r|e]; [|eauto].
  destruct (Axios.data r) eqn:Hd; eauto 8;
    right; eexists _, _, r; rewrite Hd; simpl; eauto.
Qed.

(** What one event does: it is an accepted send, or the completion of a
    send cycle, or leaves transcript, flag and requests alone. *)
Lemma step_cases (c : Session) (e : event) :
  (accepted_send c e = true /\ completes_send c e = false /\
   blank (input (ui c)) = false /\ loading (ui c) = false /\
   exists now,
     step c e =
       {| ui := {| messages := messages (ui c) ++ [userMessage (input (ui c)) now];
                   input := []; loading := true |};
          inflight := inflight c ++ [{| question := input (ui c) |}];
          console := console c |})
  \/
  (accepted_send c e = false /\ completes_send c e = true /\
   exists k o now m log,
     e = Settle k o now /\ is_Some (inflight c !! k) /\
     handleSend_resume now o (ui c) (console c) =
       ({| messages := messages (ui c) ++ [m]; input := input (ui c);
           loading := false |}, log) /\
     step c e =
       {| ui := {| messages := messages (ui c) ++ [m]; input := input (ui c);
                   loading := false |};
          inflight := delete k (inflight c);
          console := log |})
  \/
  (accepted_send c e = false /\ completes_send c e = false /\
   messages (ui (step c e)) = messages (ui c) /\
   loading (ui (step c e)) = loading (ui c) /\
   inflight (step c e) = inflight c).
Proof.
  destruct e as [text|q|key shift now|now|k o now];
    unfold step, accepted_send, completes_send.
  - right; right. done.
  - right; right. done.
  - rewrite handleSend_guard, JSFacts.not_truthy_trim.
    destruct (bool_decide (key = Enter) && negb shift); simpl;
      [|right; right; done].
    destruct (blank (input (ui c))) eqn:Hb; simpl; [right; right; done|].
    destruct (loading (ui c)) eqn:Hl; simpl; [right; right; done|].
    left. eauto 10.
  - rewrite handleSend_guard, JSFacts.not_truthy_trim.
    destruct (blank (input (ui c))) eqn:Hb; simpl; [right; right; done|].
    destruct (loading (ui c)) eqn:Hl; simpl; [right; right; done|].
    left. eauto 10.
  - destruct (inflight c !! k) as [req|] eqn:Hk.
    + right; left. rewrite bool_decide_eq_true_2 by eauto.
      split; [done|]. split; [done|].
      destruct (handleSend_resume_spec now o (ui c) (console c))
        as (m & log & Hr & _).
      exists k, o, now, m, log. rewrite Hr. eauto.
    + right; right. rewrite bool_decide_eq_false_2; [done|].
      intros [? ?]; done.
Qed.

Lemma step_balance (c : Session) (e : event) :
  length (messages (ui (step c e))) =
    (length (messages (ui c)) + (if accepted_send c e then 1 else 0)
     + (if completes_send c e then 1 else 0))%nat /\
  (length (inflight (step c e)) + (if completes_send c e then 1 else 0))%nat =
    (length (inflight c) + (if accepted_send c e then 1 else 0))%nat.
Proof.
  destruct (step_cases c e)
    as [(-> & -> & _ & _ & now & ->)
       |[(-> & -> & k & o & now & m & log & _ & Hk & _ & ->)
        |(-> & -> & -> & _ & ->)]]; simpl.
  - rewrite !length_app. simpl. lia.
  - rewrite length_app, length_delete by done. simpl.
    destruct Hk as [r Hk]. apply lookup_lt_Some in Hk. lia.
  - lia.
Qed.

(** Book-keeping of a run: every accepted send and every completion adds
    one message, and the requests in flight are the accepted sends that
    have not completed. *)
Lemma run_balance (evs : list event) (c : Session) :
  length (messages (ui (run c evs))) =
    (length (messages (ui c)) + accepted_sends c evs + completed_cycles c evs)%nat /\
  (length (inflight (run c evs)) + completed_cycles c evs)%nat =
    (length (inflight c) + accepted_sends c evs)%nat.
Proof.
  revert c. induction evs as [|e evs IH]; intros c.
  - unfold accepted_sends, completed_cycles. simpl. lia.
  - destruct (IH (step c e)) as [IH1 IH2].
    destruct (step_balance c e) as [H1 H2].
    change (run c (e :: evs)) with (run (step c e) evs).
    unfold accepted_sends, completed_cycles in *.
    cbn [count_events].
    destruct (accepted_send c e), (completes_send c e); lia.
Qed.

Lemma step_gate (c : Session) (e : event) : gate c -> gate (step c e).
Proof.
  unfold gate. intros Hg.
  destruct (step_cases c e)
    as [(_ & _ & _ & Hl & now & ->)
       |[(_ & _ & k & o & now & m & log & _ & Hk & _ & ->)
        |(_ & _ & _ & -> & ->)]]; simpl; [| |done].
  - rewrite Hl in Hg. rewrite length_app, Hg. done.
  - rewrite length_delete by done.
    destruct Hk as [r Hk]. apply lookup_lt_Some in Hk.
    destruct (loading (ui c)); lia.
Qed.

Lemma run_gate (evs : list event) (c : Session) : gate c -> gate (run c evs).
Proof.
  revert c. induction evs as [|e evs IH]; intros c Hg; [done|].
  apply (IH (step c e)), step_gate, Hg.
Qed.

Lemma mount_gate (now : Date) : gate (mount now).
Proof. done. Qed.

(** In a session, [Awaiting] means a request is in flight. *)
Lemma awaiting_iff_inflight (now : Date) (evs : list event) :
  let c := run (mount now) evs in
  (phase c = Awaiting <-> exists req, inflight c = [req]) /\
  (phase c = Idle <-> inflight c = []).
Proof.
  intros c. pose proof (run_gate evs _ (mount_gate now)) as Hg.
  fold c in Hg. unfold gate, phase in *.
  destruct (loading (ui c)), (inflight c) as [|r [|r' l]];
    simpl in Hg; try lia; split; split; try done; eauto.
  all: intros [? ?]; done.
Qed.

Lemma step_prefix (c : Session) (e : event) :
  messages (ui c) `prefix_of` messages (ui (step c e)).
Proof.
  destruct (step_cases c e)
    as [(_ & _ & _ & _ & now & ->)
       |[(_ & _ & k & o & now & m & log & _ & _ & _ & ->)
        |(_ & _ & -> & _ & _)]]; simpl; [| |done].
  - by apply prefix_app_r.
  - by apply prefix_app_r.
Qed.

Lemma run_prefix (evs : list event) (c : Session) :
  messages (ui c) `prefix_of` messages (ui (run c evs)).
Proof.
  revert c. induction evs as [|e evs IH]; intros c; [done|].
  etrans; [apply step_prefix | apply (IH (step c e))].
Qed.

Lemma completed_le_accepted (now : Date) (evs : list event) :
  (completed_cycles (mount now) evs <= accepted_sends (mount now) evs)%nat.
Proof. destruct (run_balance evs (mount now)) as [_ H]. simpl in H. lia. Qed.

(** With a request in flight the transcript holds one message more: the
    user message whose reply is awaited. *)
Lemma transcript_length_in_general (now : Date) (evs : list event) :
  let c := run (mount now) evs in
  length (messages (ui c)) =
    (1 + 2 * completed_cycles (mount now) evs + length (inflight c))%nat.
Proof.
  intros c. destruct (run_balance evs (mount now)) as [H1 H2].
  fold c in H1, H2. simpl in H1, H2. lia.
Qed.

(** C3.  After any sequence of user actions and request completions that
    leaves no request pending, the transcript holds the greeting and two
    messages per completed send cycle: its length is
    [1 + 2 * completed_cycles].  A send cycle, an accepted send followed by
    the settlement of its request, fulfilled or rejected, appends exactly
    two messages, the user's and one from the assistant. *)
Theorem transcript_length_counts_cycles (now : Date) (evs : list event) :
  let c := run (mount now) evs in
  phase c = Idle ->
  length (messages (ui c)) = (1 + 2 * completed_cycles (mount now) evs)%nat /\
  forall send outcome now', accepted_send c send = true ->
    exists u a,
      messages (ui (run c [send; Settle 0 outcome now'])) =
        messages (ui c) ++ [u; a] /\
      role u = user /\ role a = assistant /\
      completed_cycles c [send; Settle 0 outcome now'] = 1%nat.
Proof.
  intros c Hidle.
  pose proof (proj2 (awaiting_iff_inflight now evs)) as Hi.
  fold c in Hi. apply Hi in Hidle. split.
  - pose proof (transcript_length_in_general now evs) as Hgen.
    cbv zeta in Hgen. fold c in Hgen. rewrite Hidle in Hgen.
    simpl in Hgen. lia.
  - intros send o now' Hacc.
    destruct (step_cases c send)
      as [(_ & Hc & _ & _ & t & Hs)
         |[(Hf & _)|(Hf & _)]]; [|congruence..].
    unfold completed_cycles. cbn [count_events run foldl].
    rewrite Hc, Hs, Hidle. cbn [step inflight app lookup list_lookup].
    destruct (handleSend_resume_spec now' o
                {| messages := messages (ui c) ++ [userMessage (input (ui c)) t];
                   input := []; loading := true |} (console c))
      as (m & log & Hr & Hrole & _).
    cbn [ui console]. rewrite Hr. cbn [ui messages completes_send inflight].
    exists (userMessage (input (ui c)) t), m.
    rewrite <- app_assoc. split; [done|]. split; [done|]. split; [done|].
    done.
Qed.

Lemma transcript_length_counts_cycles_witness :
  length (messages (ui (run (mount 0)
            [Change (lit "hi"); SendClick 1; Settle 0 (Rejected TypeError) 2;
             ExampleClick (lit "Show me supplier performance"); SendClick 3;
             Settle 0 (Fulfilled {| Axios.data := VNull |}) 4]))) = 5%nat.
Proof.
  exact (proj1 (transcript_length_counts_cycles 0
            [Change (lit "hi"); SendClick 1; Settle 0 (Rejected TypeError) 2;
             ExampleClick (lit "Show me supplier performance"); SendClick 3;
             Settle 0 (Fulfilled {| Axios.data := VNull |}) 4] eq_refl)).
Defined.

(** C4.  When the request of a send settles, the session goes from
    Awaiting back to Idle and exactly one message is appended, an
    assistant message: on success its content is the returned answer and
    its data the returned data; on failure its content is the fixed error
    text and its error flag is set.  Every outcome is one of the two. *)
Theorem settle_appends_one_assistant_message
  (now0 : Date) (evs : list event) (k : nat)
  (outcome : settled Axios.response) (now : Date) :
  let c := run (mount now0) evs in
  let c' := step c (Settle k outcome now) in
  is_Some (inflight c !! k) ->
  phase c = Awaiting /\ phase c' = Idle /\ inflight c' = [] /\
  (exists m,
     messages (ui c') = messages (ui c) ++ [m] /\
     role m = assistant /\
     (forall answer d, succeeded outcome answer d ->
        content m = answer /\ data m = Some d /\ error m = None) /\
     (failed outcome ->
        content m = VStr errorText /\ error m = Some true)) /\
  (failed outcome \/ exists answer d, succeeded outcome answer d).
Proof.
  intros c c' Hk.
  destruct (awaiting_iff_inflight now0 evs) as [Ha Hi]. fold c in Ha, Hi.
  pose proof (run_gate evs _ (mount_gate now0)) as Hg. fold c in Hg.
  assert (Hload : loading (ui c) = true).
  { unfold gate in Hg. destruct (loading (ui c)); [done|].
    destruct Hk as [r Hr]. apply lookup_lt_Some in Hr. lia. }
  assert (Hph : phase c = Awaiting) by (unfold phase; by rewrite Hload).
  destruct (proj1 Ha Hph) as [req Hreq].
  assert (k = 0%nat) as ->.
  { destruct Hk as [r Hr]. apply lookup_lt_Some in Hr.
    rewrite Hreq in Hr. simpl in Hr. lia. }
  split; [done|].
  destruct (handleSend_resume_spec now outcome (ui c) (console c))
    as (m & log & Hr & Hrole & _ & Hok & Hfail).
  subst c'. cbn [step]. rewrite Hreq. cbn [lookup list_lookup].
  rewrite Hr. cbn [ui inflight messages loading phase delete list_delete].
  split; [done|]. split; [done|]. split; [|apply succeeded_or_failed].
  exists m. split; [done|]. split; [done|]. split; [done|].
  intros Hf. rewrite (Hfail Hf). done.
Qed.

Lemma settle_appends_one_assistant_message_witness :
  exists m,
    messages (ui (run (mount 0)
      [Change (lit "hi"); SendClick 1;
       Settle 0 (Fulfilled {| Axios.data :=
          VObj [(lit "answer", VStr (lit "12 units"));
                (lit "data", VObj [(lit "qty", VNum 12)])] |}) 2]))
    = messages (ui (run (mount 0) [Change (lit "hi"); SendClick 1])) ++ [m] /\
    content m = VStr (lit "12 units") /\
    data m = Some (VObj [(lit "qty", VNum 12)]).
Proof.
  destruct (settle_appends_one_assistant_message 0
              [Change (lit "hi"); SendClick 1] 0
              (Fulfilled {| Axios.data :=
                 VObj [(lit "answer", VStr (lit "12 units"));
                       (lit "data", VObj [(lit "qty", VNum 12)])] |}) 2)
    as (_ & _ & _ & (m & Hm & _ & Hok & _) & _).
  - exists {| question := lit "hi" |}. reflexivity.
  - exists m. split; [exact Hm|].
    destruct (Hok (VStr (lit "12 units")) (VObj [(lit "qty", VNum 12)]))
      as (Hc & Hd & _).
    + eexists. split; [reflexivity|]. split; reflexivity.
    + split; [exact Hc | exact Hd].
Defined.

(** C5.  [handleSend] called while a request is in flight (the session is
    Awaiting), or with a blank input (empty or white space only), does
    nothing: the session it returns is the one it was given, so the
    transcript and the input buffer are unchanged and no request is
    issued.  The same holds for the two ways of reaching [handleSend], the
    send button and the Enter key. *)
Theorem send_is_noop_when_awaiting_or_blank (c : Session) (now : Date) :
  phase c = Awaiting \/ blank (input (ui c)) = true ->
  handleSend now c = c /\
  messages (ui (handleSend now c)) = messages (ui c) /\
  input (ui (handleSend now c)) = input (ui c) /\
  inflight (handleSend now c) = inflight c /\
  step c (SendClick now) = c /\
  forall key shiftKey, step c (KeyPress key shiftKey now) = c.
Proof.
  intros H.
  assert (Hs : handleSend now c = c).
  { rewrite handleSend_guard. unfold phase in H.
    destruct H as [H| ->]; [|done].
    destruct (loading (ui c)); [|done]. by rewrite orb_true_r. }
  rewrite Hs. repeat split; try done.
  intros key shiftKey. cbn [step]. rewrite Hs. by destruct (_ && _).
Qed.

Lemma send_is_noop_when_awaiting_or_blank_witness :
  handleSend 7 (run (mount 0) [Change (lit "  "); Change [0x3000; 0x9]])
  = run (mount 0) [Change (lit "  "); Change [0x3000; 0x9]].
Proof.
  apply (send_is_noop_when_awaiting_or_blank
           (run (mount 0) [Change (lit "  "); Change [0x3000; 0x9]]) 7).
  right. reflexivity.
Defined.

Lemma transcript_starts_with_seed (now : Date) (evs : list event) :
  exists rest, messages (ui (run (mount now) evs)) = seed now :: rest.
Proof.
  destruct (run_prefix evs (mount now)) as [rest Hrest].
  exists rest. rewrite Hrest. done.
Qed.

Lemma transcript_length_by_sends (now : Date) (evs : list event) :
  length (messages (ui (run (mount now) evs))) =
    (1 + accepted_sends (mount now) evs + completed_cycles (mount now) evs)%nat.
Proof. destruct (run_balance evs (mount now)) as [H _]. exact H. Qed.

(** C8.  The example questions are shown exactly when the transcript has
    length 1, that is when it is still the single greeting, that is when
    no send has been accepted yet; once they are hidden they stay hidden
    whatever happens next in the session. *)
Theorem examples_visible_iff_only_seed (now : Date) (evs : list event) :
  let c := run (mount now) evs in
  (examples_visible (ui c) = true <-> length (messages (ui c)) = 1%nat) /\
  (examples_visible (ui c) = true <-> messages (ui c) = [seed now]) /\
  (examples_visible (ui c) = true <-> accepted_sends (mount now) evs = 0%nat) /\
  (forall evs', examples_visible (ui c) = false ->
                examples_visible (ui (run c evs')) = false).
Proof.
  intros c.
  assert (Hvis : forall s, examples_visible s = true <-> length (messages s) = 1%nat).
  { intros s. unfold examples_visible. apply bool_decide_eq_true. }
  destruct (transcript_starts_with_seed now evs) as [rest Hrest]. fold c in Hrest.
  pose proof (transcript_length_by_sends now evs) as Hlen. fold c in Hlen.
  pose proof (completed_le_accepted now evs) as Hle.
  split; [apply Hvis|]. split; [|split].
  - rewrite Hvis, Hrest. destruct rest; simpl; split; intros H; done.
  - rewrite Hvis. lia.
  - intros evs' Hhid.
    apply not_true_iff_false. apply not_true_iff_false in Hhid.
    rewrite Hvis in *.
    destruct (run_prefix evs' c) as [more Hmore]. rewrite Hmore, length_app.
    rewrite Hrest in *. simpl in *. destruct rest; simpl in *; [done|lia].
Qed.

Lemma examples_visible_iff_only_seed_witness :
  examples_visible (ui (run (mount 0)
    [Change (lit "hi"); SendClick 1; Settle 0 (Rejected TypeError) 2;
     Change (lit "again")])) = false.
Proof.
  apply (proj2 (proj2 (proj2 (examples_visible_iff_only_seed 0
           [Change (lit "hi"); SendClick 1])))
           [Settle 0 (Rejected TypeError) 2; Change (lit "again")]).
  reflexivity.
Defined.

(** C9.  In every state of a session the transcript is not empty and
    begins with the greeting, and whatever happens next only appends to
    it: the transcript before is a prefix of the transcript after, so no
    message is changed or removed.  A single operation is the case of one
    event. *)
Theorem transcript_nonempty_append_only
  (now : Date) (evs evs' : list event) (e : event) :
  let c := run (mount now) evs in
  messages (ui c) <> [] /\
  head (messages (ui c)) = Some (seed now) /\
  messages (ui c) `prefix_of` messages (ui (step c e)) /\
  messages (ui c) `prefix_of` messages (ui (run c evs')).
Proof.
  intros c.
  destruct (transcript_starts_with_seed now evs) as [rest Hrest]. fold c in Hrest.
  rewrite Hrest at 1 2. split; [done|]. split; [done|].
  split; [apply step_prefix | apply run_prefix].
Qed.

(** Scenario 1 of the specification: a question answered with data. *)
Example question_answered :
  messages (ui (run (mount 0)
    [ExampleClick (lit "How many S2_V1 scooters can we build right now?");
     SendClick 10;
     Settle 0 (Fulfilled {| Axios.data :=
       VObj [(lit "answer", VStr (lit "12 units"));
             (lit "data", VObj [(lit "qty", VNum 12)])] |}) 20])) =
  [seed 0;
   userMessage (lit "How many S2_V1 scooters can we build right now?") 10;
   {| role := assistant; content := VStr (lit "12 units"); timestamp := 20;
      data := Some (VObj [(lit "qty", VNum 12)]); error := None |}].
Proof. reflexivity. Qed.

(** Scenario 2: the request fails; a second send while it is pending is
    ignored. *)
Example question_failed :
  messages (ui (run (mount 0)
    [Change (lit "..."); KeyPress Enter false 10; SendClick 11;
     Settle 0 (Rejected Scenarios.network_error) 20])) =
  [seed 0; userMessage (lit "...") 10; errorMessage 20].
Proof. reflexivity. Qed.

End ChatFacts.

(* ===================================================================== *)
(** ** The dashboard snapshot: proofs                                     *)
(* ===================================================================== *)

Module DashboardFacts.
Import JS Dashboard.

Lemma run_after_settlement (m : Mounted) (evs : list event) (ev : event) :
  run m (evs ++ [ev]) = step (run m evs) ev.
Proof. unfold run. by rewrite foldl_app. Qed.

Lemma outcome_of_snoc (e : endpoint) (evs : list event) (ev : event) :
  outcome_of e (evs ++ [ev]) = first_settlement e ev (outcome_of e evs).
Proof.
  induction evs as [|[e' o] evs IH]; simpl.
  - destruct ev as [e' o]. by destruct (decide (e' = e)).
  - destruct (decide (e' = e)); [done | exact IH].
Qed.

Lemma mount_consistent (prev : State) :
  consistent prev None None None None (mount prev).
Proof. unfold consistent. simpl. done. Qed.

Lemma first_settlement_same (e : endpoint) (o : settled Axios.response)
  (a : option (settled Axios.response)) :
  first_settlement e (Settle e o) a =
    match a with Some x => Some x | None => Some o end.
Proof. unfold first_settlement. destruct a; [done|]. by case_decide. Qed.

Lemma first_settlement_other (e e' : endpoint) (o : settled Axios.response)
  (a : option (settled Axios.response)) :
  e' <> e -> first_settlement e (Settle e' o) a = a.
Proof. intros. unfold first_settlement. destruct a; [done|]. by case_decide. Qed.

(** Case analysis on the flags an invariant mentions. *)
Ltac orb_cases :=
  repeat match goal with
         | |- context [is_rejected ?a] => destruct (is_rejected a)
         | |- context [match ?o with Fulfilled _ => _ | Rejected _ => _ end] =>
             destruct o
         end;
  cbn; done.

Ltac value_cases :=
  repeat match goal with
         | |- context [value_of ?a] => destruct (value_of a)
         end;
  cbn; done.

(** One settlement keeps the component consistent with the settlements
    so far. *)
Lemma step_consistent (prev : State)
  (a0 a1 a2 a3 : option (settled Axios.response)) (m : Mounted) (ev : event) :
  consistent prev a0 a1 a2 a3 m ->
  consistent prev
    (first_settlement getAlerts ev a0)
    (first_settlement getInventorySummary ev a1)
    (first_settlement getStockoutRisks ev a2)
    (first_settlement getSupplierPerformance ev a3)
    (step m ev).
Proof.
  destruct m as [st flags al calls log].
  unfold consistent. cbn [settled_requests all state setData_calls].
  intros [-> Hal].
  destruct ev as [e o].
  destruct al as [values|].
  - (* [Promise.all] is pending: no rejection so far, some request open *)
    destruct Hal as (-> & Hrej & Hpend & -> & ->).
    destruct a0 as [[r0|x0]|]; cbn in Hrej; try discriminate Hrej;
      destruct a1 as [[r1|x1]|]; cbn in Hrej; try discriminate Hrej;
      destruct a2 as [[r2|x2]|]; cbn in Hrej; try discriminate Hrej;
      destruct a3 as [[r3|x3]|]; cbn in Hrej; try discriminate Hrej;
      try discriminate Hpend; clear Hrej Hpend.
    all: destruct e;
      rewrite first_settlement_same, !first_settlement_other by done;
      unfold commit_or_catch, step, all_react, fetchDashboardData_resume;
      cbn -[snapshot]; try done.
    all: destruct o as [r|x]; cbn -[snapshot]; try done.
    all: try (split; [done|]; left; done).
    all: destruct (snapshot _); cbn; by auto.
  - (* [Promise.all] has settled: only the request's own flag changes *)
    assert (Hkeep : forall a, is_settled a = true ->
              match a with Some x => Some x | None => Some o end = a).
    { by intros [?|]. }
    destruct e;
      rewrite first_settlement_same, !first_settlement_other by done;
      unfold step, all_react; cbn.
    + destruct a0 as [x|]; cbn; [done|]. split; [done|].
      destruct Hal as [(Hrej & -> & ->)|Hcommit];
        [ left; split; [|done]; revert Hrej; cbn; orb_cases
        | exfalso; revert Hcommit; cbn; value_cases ].
    + destruct a1 as [x|]; cbn; [done|]. split; [done|].
      destruct Hal as [(Hrej & -> & ->)|Hcommit];
        [ left; split; [|done]; revert Hrej; cbn; orb_cases
        | exfalso; revert Hcommit; cbn; value_cases ].
    + destruct a2 as [x|]; cbn; [done|]. split; [done|].
      destruct Hal as [(Hrej & -> & ->)|Hcommit];
        [ left; split; [|done]; revert Hrej; cbn; orb_cases
        | exfalso; revert Hcommit; cbn; value_cases ].
    + destruct a3 as [x|]; cbn; [done|]. split; [done|].
      destruct Hal as [(Hrej & -> & ->)|Hcommit];
        [ left; split; [|done]; revert Hrej; cbn; orb_cases
        | exfalso; revert Hcommit; cbn; value_cases ].
Qed.

(** After any schedule the component is consistent with the first
    settlement of each request. *)
Lemma run_consistent (prev : State) (evs : list event) :
  consistent prev
    (outcome_of getAlerts evs) (outcome_of getInventorySummary evs)
    (outcome_of getStockoutRisks evs) (outcome_of getSupplierPerformance evs)
    (run (mount prev) evs).
Proof.
  induction evs as [|ev evs IH] using rev_ind.
  - apply mount_consistent.
  - rewrite run_after_settlement, !outcome_of_snoc. by apply step_consistent.
Qed.

Lemma snapshot_clears_loading (results : list Axios.response) (s : State) :
  snapshot results = Normal s -> loading s = false.
Proof.
  unfold snapshot.
  destruct results as [|r0 [|r1 [|r2 [|r3 [|? ?]]]]]; try done.
  destruct (get (Axios.data r0) _); [|done]. cbn.
  destruct (get (Axios.data r2) _); [|done]. cbn.
  destruct (get (Axios.data r3) _); [|done]. cbn.
  by intros [= <-].
Qed.

(** As soon as one request has been rejected the effect has run its
    [catch] block, once, and the data is what it was. *)
Lemma rejection_keeps_prior_state (prev : State) (evs : list event) :
  (exists e, rejected e evs) ->
  state (run (mount prev) evs) = clear_loading prev /\
  setData_calls (run (mount prev) evs) = [ClearLoading].
Proof.
  intros [e [err He]].
  destruct (run_consistent prev evs) as [_ Hal].
  assert (Hrej : is_rejected (outcome_of getAlerts evs)
                 || is_rejected (outcome_of getInventorySummary evs)
                 || is_rejected (outcome_of getStockoutRisks evs)
                 || is_rejected (outcome_of getSupplierPerformance evs) = true).
  { destruct e; rewrite He; cbn; by rewrite ?orb_true_r. }
  destruct (all (run (mount prev) evs)) as [values|].
  - destruct Hal as (_ & Hno & _). congruence.
  - destruct Hal as [(_ & Hst & Hcalls)|Hcommit]; [done|].
    exfalso. revert Hcommit.
    destruct e; rewrite He; cbn; value_cases.
Qed.

(** A snapshot is only ever committed from four fulfilled requests. *)
Lemma commit_needs_all_fulfilled (prev : State) (evs : list event) (s : State) :
  NewSnapshot s ∈ setData_calls (run (mount prev) evs) ->
  exists r0 r1 r2 r3,
    outcome_of getAlerts evs = Some (Fulfilled r0) /\
    outcome_of getInventorySummary evs = Some (Fulfilled r1) /\
    outcome_of getStockoutRisks evs = Some (Fulfilled r2) /\
    outcome_of getSupplierPerformance evs = Some (Fulfilled r3) /\
    snapshot [r0; r1; r2; r3] = Normal s /\
    state (run (mount prev) evs) = s.
Proof.
  intros Hin.
  destruct (run_consistent prev evs) as [_ Hal].
  destruct (all (run (mount prev) evs)) as [values|].
  - destruct Hal as (_ & _ & _ & _ & Hcalls). rewrite Hcalls in Hin.
    by apply elem_of_nil in Hin.
  - destruct Hal as [(_ & _ & Hcalls)|Hcommit].
    + rewrite Hcalls in Hin. apply list_elem_of_singleton in Hin. done.
    + destruct (outcome_of getAlerts evs) as [[r0|?]|]; try done.
      destruct (outcome_of getInventorySummary evs) as [[r1|?]|]; try done.
      destruct (outcome_of getStockoutRisks evs) as [[r2|?]|]; try done.
      destruct (outcome_of getSupplierPerformance evs) as [[r3|?]|]; try done.
      cbn in Hcommit. unfold commit_or_catch in Hcommit.
      exists r0, r1, r2, r3. repeat (split; [done|]).
      destruct (snapshot [r0; r1; r2; r3]) as [s'|x];
        injection Hcommit as Hst Hcalls; rewrite Hcalls in Hin;
        apply list_elem_of_singleton in Hin; [|done].
      injection Hin as ->. done.
Qed.

(** C1.  Whatever the order in which the four requests settle, a new
    snapshot is given to [setData] only if all four of them were fulfilled;
    and if any of them was rejected, the only call to [setData] clears the
    loading flag and leaves alerts, inventory, stockoutRisks and suppliers
    at their prior values. *)
Theorem snapshot_committed_only_if_all_succeed
  (prev : State) (evs : list event) :
  let m := run (mount prev) evs in
  (forall s, NewSnapshot s ∈ setData_calls m -> forall e, fulfilled e evs) /\
  ((exists e, rejected e evs) ->
     loading (state m) = false /\
     alerts (state m) = alerts prev /\
     inventory (state m) = inventory prev /\
     stockoutRisks (state m) = stockoutRisks prev /\
     suppliers (state m) = suppliers prev /\
     setData_calls m = [ClearLoading]).
Proof.
  intros m. split.
  - intros s Hin e.
    destruct (commit_needs_all_fulfilled prev evs s Hin)
      as (r0 & r1 & r2 & r3 & H0 & H1 & H2 & H3 & _).
    unfold fulfilled. destruct e; eauto.
  - intros Hrej.
    destruct (rejection_keeps_prior_state prev evs Hrej) as [Hst Hcalls].
    subst m. rewrite Hst, Hcalls. done.
Qed.

Lemma snapshot_committed_only_if_all_succeed_witness :
  let m := run (mount initial) Scenarios.supplier_failure in
  loading (state m) = false /\
  alerts (state m) = VArr [] /\
  inventory (state m) = VNull /\
  stockoutRisks (state m) = VArr [] /\
  suppliers (state m) = VArr [] /\
  setData_calls m = [ClearLoading].
Proof.
  apply (proj2 (snapshot_committed_only_if_all_succeed
                  initial Scenarios.supplier_failure)).
  exists getSupplierPerformance, Scenarios.network_error. reflexivity.
Defined.

(** When all four requests are fulfilled with bodies of the documented
    shape, the snapshot is the fetched data. *)
Example all_succeed_commits :
  state (run (mount initial) Scenarios.all_succeed) =
    {| alerts := VArr [Scenarios.an_alert];
       inventory := Scenarios.an_inventory_summary;
       stockoutRisks := VArr [Scenarios.a_risk 2];
       suppliers := VArr [Scenarios.a_supplier];
       loading := false |}.
Proof. reflexivity. Qed.

(** The flag stays on while some of the four requests are still open,
    also after the first of them has been fulfilled. *)
Example loading_waits_for_all_four :
  let m := run (mount initial)
             [Settle getAlerts (Fulfilled Scenarios.alerts_response);
              Settle getStockoutRisks (Fulfilled Scenarios.risks_response)] in
  loading (state m) = true /\ pending m = true /\ setData_calls m = [].
Proof. done. Qed.

(** The first rejection settles the fetch at once; what settles later
    changes nothing. *)
Example first_rejection_settles :
  let m := run (mount initial)
             [Settle getInventorySummary (Rejected Scenarios.network_error)] in
  let m' := run m [Settle getAlerts (Fulfilled Scenarios.alerts_response);
                   Settle getSupplierPerformance (Rejected TypeError)] in
  state m = clear_loading initial /\ pending m = false /\
  state m' = state m /\ setData_calls m' = [ClearLoading] /\
  console m' = [Scenarios.network_error].
Proof. done. Qed.

(** C2, as stated, fails: with the supplier request rejected after the
    other three were fulfilled, the alerts shown are not the fetched
    ones. *)
Lemma partial_commit_counterexample :
  let m := run (mount initial) Scenarios.supplier_failure in
  ~ (loading (state m) = false /\
     suppliers (state m) = suppliers initial /\
     alerts (state m) = VArr [Scenarios.an_alert] /\
     inventory (state m) = Scenarios.an_inventory_summary /\
     stockoutRisks (state m) = VArr [Scenarios.a_risk 2]).
Proof. intros m (_ & _ & Halerts & _). vm_compute in Halerts. discriminate. Qed.

(** C2, amended.  When the supplier request is rejected and the other
    three are fulfilled, loading becomes false and suppliers keeps its
    prior value, and so do alerts, inventory and stockoutRisks: none of
    the fetched data is committed. *)
Theorem supplier_failure_commits_nothing (prev : State) (evs : list event) :
  fulfilled getAlerts evs ->
  fulfilled getInventorySummary evs ->
  fulfilled getStockoutRisks evs ->
  rejected getSupplierPerformance evs ->
  let m := run (mount prev) evs in
  loading (state m) = false /\
  suppliers (state m) = suppliers prev /\
  alerts (state m) = alerts prev /\
  inventory (state m) = inventory prev /\
  stockoutRisks (state m) = stockoutRisks prev.
Proof.
  intros _ _ _ Hrej m.
  destruct (rejection_keeps_prior_state prev evs) as [Hst _]; [by eexists|].
  subst m. rewrite Hst. done.
Qed.

Lemma supplier_failure_commits_nothing_witness :
  let m := run (mount initial) Scenarios.supplier_failure in
  loading (state m) = false /\
  suppliers (state m) = VArr [] /\
  alerts (state m) = VArr [] /\
  inventory (state m) = VNull /\
  stockoutRisks (state m) = VArr [].
Proof.
  apply (supplier_failure_commits_nothing initial Scenarios.supplier_failure).
  - exists Scenarios.alerts_response. reflexivity.
  - exists Scenarios.inventory_response. reflexivity.
  - exists Scenarios.risks_response. reflexivity.
  - exists Scenarios.network_error. reflexivity.
Defined.

Lemma trace_head (m : Mounted) (evs : list event) :
  exists rest, trace m evs = m :: rest.
Proof. destruct evs; simpl; eauto. Qed.

Lemma step_settled_stays (m : Mounted) (ev : event) :
  pending m = false -> pending (step m ev) = false.
Proof.
  unfold pending. destruct ev as [e o]. cbn [step].
  destruct (all m) eqn:Hall; [done|]. intros _.
  destruct (settled_requests m !! index e) as [[|]|]; rewrite ?Hall; try done.
  unfold all_react. cbn [all mark_settled]. rewrite Hall. cbn. by rewrite Hall.
Qed.

Lemma run_settled_stays (evs : list event) (m : Mounted) :
  pending m = false -> pending (run m evs) = false.
Proof.
  revert m. induction evs as [|ev evs IH]; intros m H; [done|].
  apply (IH (step m ev)), step_settled_stays, H.
Qed.

Lemma falls_cons (b b' : bool) (bs : list bool) :
  falls (b :: b' :: bs) =
    ((if b && negb b' then 1 else 0) + falls (b' :: bs))%nat.
Proof. done. Qed.

Lemma rises_cons (b b' : bool) (bs : list bool) :
  rises (b :: b' :: bs) =
    ((if negb b && b' then 1 else 0) + rises (b' :: bs))%nat.
Proof. done. Qed.

(** While [Promise.all] is pending nothing has been set; once it has
    settled [setData] has been called once and loading is off. *)
Lemma consistent_loading (prev : State)
  (a0 a1 a2 a3 : option (settled Axios.response)) (m : Mounted) :
  loading prev = true ->
  consistent prev a0 a1 a2 a3 m ->
  loading (state m) = pending m /\
  length (setData_calls m) = if pending m then 0%nat else 1%nat.
Proof.
  intros Hprev [_ Hal]. unfold pending.
  destruct (all m) as [values|].
  - destruct Hal as (_ & _ & _ & -> & ->). done.
  - destruct Hal as [(_ & -> & ->)|Hcommit]; [done|].
    destruct (value_of a0), (value_of a1), (value_of a2), (value_of a3);
      try done.
    unfold commit_or_catch in Hcommit.
    destruct (snapshot _) as [s|x] eqn:Hs;
      injection Hcommit as -> ->; [|done].
    by rewrite (snapshot_clears_loading _ _ Hs).
Qed.

(** Along any schedule the loading flag never comes back on, and it goes
    off at the one step, if any, at which [Promise.all] settles. *)
Lemma loading_readings_spec (prev : State) (evs : list event) :
  loading prev = true ->
  forall (a0 a1 a2 a3 : option (settled Axios.response)) (m : Mounted),
    consistent prev a0 a1 a2 a3 m ->
    rises (loading_readings m evs) = 0%nat /\
    falls (loading_readings m evs) =
      (if pending m && negb (pending (run m evs)) then 1%nat else 0%nat) /\
    forall m', m' ∈ trace m evs ->
      loading (state m') = pending m' /\
      length (setData_calls m') = if pending m' then 0%nat else 1%nat.
Proof.
  intros Hprev. unfold loading_readings.
  induction evs as [|ev evs IH]; intros a0 a1 a2 a3 m Hm.
  - cbn. rewrite andb_negb_r. split; [done|]. split; [done|].
    intros m' ->%list_elem_of_singleton.
    by apply (consistent_loading prev a0 a1 a2 a3).
  - pose proof (step_consistent prev a0 a1 a2 a3 m ev Hm) as Hm'.
    destruct (IH _ _ _ _ _ Hm') as (Hrise & Hfall & Hall).
    destruct (consistent_loading prev _ _ _ _ _ Hprev Hm) as [Hl Hc].
    destruct (consistent_loading prev _ _ _ _ _ Hprev Hm') as [Hl' Hc'].
    pose proof (step_settled_stays m ev) as Hstay.
    pose proof (run_settled_stays evs (step m ev)) as Hstay'.
    change (run m (ev :: evs)) with (run (step m ev) evs).
    cbn [trace fmap list_fmap].
    destruct (trace_head (step m ev) evs) as [rest Hrest].
    rewrite Hrest in *. cbn [fmap list_fmap] in *.
    rewrite rises_cons, falls_cons, Hrise, Hfall, Hl, Hl'.
    split; [|split].
    + destruct (pending m), (pending (step m ev)); cbn; try done.
      by specialize (Hstay eq_refl).
    + destruct (pending m), (pending (step m ev)),
        (pending (run (step m ev) evs)); cbn; try done;
        try (by specialize (Hstay eq_refl));
        try (by specialize (Hstay' eq_refl)).
    + intros m' [->|Hin]%elem_of_cons; [done|]. by apply Hall.
Qed.

Lemma settled_in_schedule (e : endpoint) (evs : list event) :
  (exists ev, ev ∈ evs /\ target ev = e) ->
  is_settled (outcome_of e evs) = true.
Proof.
  intros (ev & Hin & Ht).
  induction evs as [|[e' o] evs IH]; [by apply elem_of_nil in Hin|].
  cbn. case_decide; [done|].
  apply elem_of_cons in Hin as [->|Hin]; [done | by apply IH].
Qed.

Lemma complete_by_outcomes (evs : list event) :
  (forall e, is_settled (outcome_of e evs) = true) -> complete evs.
Proof.
  intros H e. specialize (H e).
  induction evs as [|[e' o] evs IH]; [done|].
  cbn in H. case_decide as He.
  - exists (Settle e' o). split; [apply list_elem_of_here | done].
  - destruct (IH H) as (ev & Hin & Ht).
    exists ev. split; [by apply list_elem_of_further | done].
Qed.

(** When every request has settled, so has [Promise.all]. *)
Lemma complete_settles (prev : State) (evs : list event) :
  complete evs -> pending (run (mount prev) evs) = false.
Proof.
  intros Hc. destruct (run_consistent prev evs) as [_ Hal].
  unfold pending. destruct (all (run (mount prev) evs)) as [values|]; [|done].
  destruct Hal as (_ & _ & Hopen & _).
  rewrite !settled_in_schedule in Hopen by apply Hc. done.
Qed.

(** C6.  From a component that is loading, along any schedule in which
    the four requests settle, in any order and with any mix of outcomes,
    the loading flag goes from true to false exactly once and never back:
    at the end it is false and [setData] has been called exactly once.  At
    every point of the schedule the flag is on exactly while the fetch, the
    [Promise.all] of the four requests, has not settled. *)
Theorem loading_cleared_exactly_once (prev : State) (evs : list event) :
  loading prev = true ->
  complete evs ->
  falls (loading_readings (mount prev) evs) = 1%nat /\
  rises (loading_readings (mount prev) evs) = 0%nat /\
  loading (state (run (mount prev) evs)) = false /\
  length (setData_calls (run (mount prev) evs)) = 1%nat /\
  forall m, m ∈ trace (mount prev) evs ->
    (loading (state m) = true <-> pending m = true) /\
    (loading (state m) = true -> setData_calls m = []).
Proof.
  intros Hprev Hc.
  destruct (loading_readings_spec prev evs Hprev _ _ _ _ _ (mount_consistent prev))
    as (Hrise & Hfall & Hall).
  pose proof (complete_settles prev evs Hc) as Hend.
  destruct (consistent_loading prev _ _ _ _ _ Hprev (run_consistent prev evs))
    as [Hl Hcalls].
  rewrite Hend in *. split; [done|]. split; [done|]. split; [done|].
  split; [done|].
  intros m Hin. destruct (Hall m Hin) as [Hlm Hcm]. rewrite Hlm. split; [done|].
  intros Hp. rewrite Hp in Hcm. by destruct (setData_calls m).
Qed.

Lemma loading_cleared_exactly_once_witness :
  falls (loading_readings (mount initial) Scenarios.supplier_failure) = 1%nat /\
  falls (loading_readings (mount initial) Scenarios.all_succeed) = 1%nat.
Proof.
  split.
  - apply (loading_cleared_exactly_once initial Scenarios.supplier_failure).
    + reflexivity.
    + apply complete_by_outcomes. intros e. destruct e; reflexivity.
  - apply (loading_cleared_exactly_once initial Scenarios.all_succeed).
    + reflexivity.
    + apply complete_by_outcomes. intros e. destruct e; reflexivity.
Defined.

(** *** The stock-out table *)

Section StockoutTableFacts.

Variable toLowerCase : jsstring -> jsstring.

Abbreviation risk_row := (risk_row toLowerCase).
Abbreviation stockout_rows := (stockout_rows toLowerCase).

Lemma risk_row_key (risk : value) (i : nat) (row : Row) :
  risk_row risk i = Normal row -> key row = i.
Proof.
  unfold Dashboard.risk_row.
  destruct (get risk (lit "description")); cbn; [|done].
  destruct (get risk (lit "days_until_stockout")); cbn; [|done].
  destruct (get risk (lit "urgency")); cbn; [|done].
  destruct (call_toLowerCase _ _); cbn; [|done].
  by intros [= <-].
Qed.

Lemma map_from_inv (f : value -> nat -> completion Row) (i : nat)
  (x : value) (items : list value) (rows : list Row) :
  map_from f i (x :: items) = Normal rows ->
  exists y ys, rows = y :: ys /\ f x i = Normal y /\
               map_from f (S i) items = Normal ys.
Proof.
  cbn. destruct (f x i) as [y|]; cbn; [|done].
  destruct (map_from f (S i) items) as [ys|]; cbn; [|done].
  intros [= <-]. eauto.
Qed.

(** A successful [map] yields one row per item, row [j] computed from
    item [j] and its index. *)
Lemma map_from_spec (f : value -> nat -> completion Row)
  (items : list value) (i : nat) (rows : list Row) :
  map_from f i items = Normal rows ->
  length rows = length items /\
  forall j row, rows !! j = Some row ->
    exists x, items !! j = Some x /\ f x (i + j)%nat = Normal row.
Proof.
  revert i rows. induction items as [|x items IH]; intros i rows H.
  - cbn in H. injection H as <-. done.
  - apply map_from_inv in H as (y & ys & -> & Hy & Hys).
    destruct (IH _ _ Hys) as [Hlen Hrows]. split; [cbn; by rewrite Hlen|].
    intros [|j] row Hj; cbn in Hj.
    + injection Hj as <-. exists x. by rewrite Nat.add_0_r.
    + destruct (Hrows j row Hj) as (x' & Hx' & Hf).
      exists x'. split; [done|]. by rewrite Nat.add_succ_r.
Qed.

(** [map] succeeds when the callback does on every item. *)
Lemma map_from_total (f : value -> nat -> completion Row)
  (items : list value) (i : nat) :
  (forall j x, items !! j = Some x -> exists y, f x (i + j)%nat = Normal y) ->
  exists rows, map_from f i items = Normal rows.
Proof.
  revert i. induction items as [|x items IH]; intros i H; [by eexists|].
  destruct (H 0%nat x eq_refl) as [y Hy]. rewrite Nat.add_0_r in Hy.
  destruct (IH (S i)) as [ys Hys].
  { intros j x' Hj. destruct (H (S j) x' Hj) as [y' Hy'].
    exists y'. by rewrite Nat.add_succ_r in Hy'. }
  exists (y :: ys). cbn. rewrite Hy. cbn. by rewrite Hys.
Qed.

(** C10.  The rows of the stock-out table are computed from the first six
    fetched risks only: there are [min 6 (length risks)] of them, never
    more than six, row [i] is the rendering of risk [i] with key [i], so the
    order is kept, and the risks beyond the sixth play no part.  The table
    renders whenever each of the first six risks does. *)
Theorem stockout_table_shows_first_six (s : State) (risks : list value) :
  stockoutRisks s = VArr risks ->
  stockout_rows s = map_from risk_row 0 (take 6 risks) /\
  (forall rows, stockout_rows s = Normal rows ->
     length rows = Nat.min 6 (length risks) /\
     (length rows <= 6)%nat /\
     forall i row, rows !! i = Some row ->
       (i < 6)%nat /\ key row = i /\
       exists risk, risks !! i = Some risk /\ risk_row risk i = Normal row) /\
  ((forall i risk, (i < 6)%nat -> risks !! i = Some risk ->
      exists row, risk_row risk i = Normal row) ->
   exists rows, stockout_rows s = Normal rows).
Proof.
  intros Hs.
  assert (Hrows : stockout_rows s = map_from risk_row 0 (take 6 risks)).
  { unfold Dashboard.stockout_rows. by rewrite Hs. }
  split; [done|]. rewrite Hrows. split.
  - intros rows H. destruct (map_from_spec _ _ _ _ H) as [Hlen Hrow].
    rewrite length_take in Hlen. split; [done|]. split; [lia|].
    intros i row Hi.
    destruct (Hrow i row Hi) as (risk & Hrisk & Hf). cbn in Hf.
    apply lookup_take_Some in Hrisk as [Hrisk Hlt].
    split; [done|]. split; [by apply risk_row_key in Hf|]. eauto.
  - intros H. apply map_from_total. intros j x Hj.
    apply lookup_take_Some in Hj as [Hj Hlt]. by apply H.
Qed.

End StockoutTableFacts.

Lemma stockout_table_shows_first_six_witness :
  exists rows,
    stockout_rows Scenarios.ascii_toLowerCase
      Scenarios.dashboard_with_eight_risks = Normal rows /\
    length rows = 6%nat.
Proof.
  destruct (stockout_table_shows_first_six Scenarios.ascii_toLowerCase
              Scenarios.dashboard_with_eight_risks Scenarios.eight_risks
              eq_refl) as (_ & Hrows & Htotal).
  destruct Htotal as [rows Hr].
  - intros i risk Hi Hl.
    do 6 (destruct i as [|i]; [injection Hl as <-; eexists; reflexivity|]).
    lia.
  - exists rows. split; [exact Hr|]. apply (Hrows rows Hr).
Defined.

End DashboardFacts.

(* ===================================================================== *)
(** ** The shell view: proofs                                             *)
(* ===================================================================== *)

Module AppFacts.
Import JS App.

(** The banner condition never throws: [status] is read only when it is
    neither [null] nor [undefined]. *)
Lemma banner_total (s : State) : banner s = Normal (banner_visible s).
Proof.
  unfold banner_visible, banner.
  destruct (truthy (status s)) eqn:Ht; [|done].
  destruct (status s); try discriminate Ht; cbn; done.
Qed.

(** What the effect leaves behind, by outcome of the fetch. *)
Lemma check_health_retrieved (outcome : settled Response) (v : value)
  (m : Mounted) :
  retrieved outcome v ->
  check_health outcome m =
    ({| state := {| activeTab := activeTab (state m); status := v |};
        console := console m |}, Fulfilled tt).
Proof.
  intros (res & -> & Hjson).
  unfold check_health, catch_, then_, fetch, res_json, setStatus.
  by rewrite Hjson.
Qed.

Lemma check_health_failed (outcome : settled Response) (m : Mounted) :
  failed outcome ->
  exists e,
    check_health outcome m =
      ({| state := state m; console := console m ++ [e] |}, Fulfilled tt).
Proof.
  intros [[e ->]|(res & e & -> & Hjson)]; exists e;
    unfold check_health, catch_, then_, fetch, res_json, console_error;
    [done | by rewrite Hjson].
Qed.

Lemma retrieved_or_failed (outcome : settled Response) :
  failed outcome \/ exists v, retrieved outcome v.
Proof.
  unfold failed, retrieved. destruct outcome as [res|e]; [|eauto].
  destruct (json res) as [v|e] eqn:Hj; eauto 8.
Qed.

(** C7, as stated, fails.  A reply whose body has no
    [agents_initialized] shows the banner although no health status with
    the flag false was retrieved; and so does a reply with status 500 and
    an error body. *)
Lemma banner_literal_claim_counterexample :
  ~ (banner_visible (state (fst (check_health Fetch.reply_without_flag mount)))
       = true <->
     exists v, retrieved Fetch.reply_without_flag v /\ HealthStatus v false) /\
  ~ (banner_visible (state (fst (check_health Fetch.error_reply mount)))
       = true <->
     exists v, retrieved Fetch.error_reply v /\ HealthStatus v false).
Proof.
  split; intros [H _]; destruct (H eq_refl)
    as (v & (res & Hres & Hjson) & (fields & -> & Hflag));
    injection Hres as <-; cbn in Hjson; injection Hjson as <-;
    vm_compute in Hflag; discriminate.
Qed.

(** C7, amended.  When the health fetch is answered with a success status,
    the warning banner is shown exactly when the body was parsed, is truthy
    and its [agents_initialized] is falsy: false, or absent, [null], 0 or
    the empty string.  For a body of the shape of a health status that is:
    exactly when the flag is false.  When the fetch is rejected or the body
    cannot be parsed, the status stays unknown, no banner is shown, and the
    promise chain of the effect ends fulfilled: nothing is thrown to the
    shell.  Before the check settles there is no banner either.  A reply
    with an error status is not part of the statement. *)
Theorem banner_iff_body_truthy_and_flag_falsy (outcome : settled Response) :
  let m := fst (check_health outcome mount) in
  snd (check_health outcome mount) = Fulfilled tt /\
  (forall res, outcome = Fulfilled res -> Fetch.ok res = true ->
     (banner_visible (state m) = true <->
        exists v a,
          json res = Fulfilled v /\ truthy v = true /\
          get v (lit "agents_initialized") = Normal a /\ truthy a = false) /\
     (forall v agentsInitialized,
        json res = Fulfilled v -> HealthStatus v agentsInitialized ->
        (banner_visible (state m) = true <-> agentsInitialized = false))) /\
  (failed outcome ->
     banner_visible (state m) = false /\ status (state m) = VNull) /\
  banner_visible (state mount) = false.
Proof.
  intros m. subst m.
  destruct (retrieved_or_failed outcome) as [Hf|[v Hv]].
  - destruct (check_health_failed outcome mount Hf) as [e ->]. cbn.
    split; [done|]. split; [|done].
    intros res -> _.
    destruct Hf as [[e' He']|(res' & e' & [= <-] & Hj')]; [done|].
    split.
    + split; [done|]. intros (v & a & Hj & _). congruence.
    + intros v b Hj _. congruence.
  - rewrite (check_health_retrieved outcome v mount Hv). cbn [fst snd state].
    destruct Hv as (res' & -> & Hj').
    split; [done|]. split; [|split; [|done]].
    + intros res [= <-] _. unfold banner_visible, banner. cbn [status]. split.
      * destruct (truthy v) eqn:Ht.
        -- destruct (get v (lit "agents_initialized")) as [a|e] eqn:Ha; cbn.
           ++ rewrite negb_true_iff. split; [eauto 10|].
              intros (v' & a' & Hj & _ & Ha' & Hfalse).
              rewrite Hj' in Hj. injection Hj as <-. congruence.
           ++ split; [done|].
              intros (v' & a' & Hj & _ & Ha' & _).
              rewrite Hj' in Hj. injection Hj as <-. congruence.
        -- split; [done|].
           intros (v' & a' & Hj & Ht' & _).
           rewrite Hj' in Hj. injection Hj as <-. congruence.
      * intros v' b Hj (fields & -> & Hfield).
        rewrite Hj' in Hj. injection Hj as ->.
        cbn. rewrite Hfield. cbn. by destruct b.
    + intros [[e He]|(res & e & [= <-] & Hj)]; congruence.
Qed.

Lemma banner_iff_body_truthy_and_flag_falsy_witness :
  banner_visible
    (state (fst (check_health Fetch.initializing_reply mount))) = true.
Proof.
  destruct (proj1 (proj2 (banner_iff_body_truthy_and_flag_falsy
                            Fetch.initializing_reply))
              _ eq_refl eq_refl) as [_ Htyped].
  apply (Htyped _ false eq_refl); [|reflexivity].
  eexists. split; reflexivity.
Defined.

(** Scenario 4: the health fetch is rejected. *)
Example health_fetch_rejected :
  check_health (Rejected Scenarios.network_error) mount =
    ({| state := initial; console := [Scenarios.network_error] |}, Fulfilled tt)
  /\ banner_visible initial = false.
Proof. done. Qed.

End AppFacts.

(* ===================================================================== *)
(** ** The chat session: further properties                               *)
(* ===================================================================== *)

Module ChatViewFacts.
Import JS ChatInterface ChatView.

(** A property kept by every event, from a state in which at most one
    request is in flight, holds along every run. *)
Lemma run_invariant (P : Session -> Prop) :
  (forall c e, gate c -> P c -> P (step c e)) ->
  forall evs c, gate c -> P c -> P (run c evs).
Proof.
  intros Hstep evs. induction evs as [|e evs IH]; intros c Hg Hc; [done|].
  apply (IH (step c e)); [by apply ChatFacts.step_gate | by apply Hstep].
Qed.

(** The two ways a settling request ends: the reply is appended and
    nothing is logged, or the error message is appended and the error is
    logged. *)
Lemma handleSend_resume_cases (now : Date) (o : settled Axios.response)
  (s : State) (log : list exn) :
  (exists answer d,
     succeeded o answer d /\
     handleSend_resume now o s log =
       ({| messages := messages s ++
             [{| role := assistant; content := answer; timestamp := now;
                 data := Some d; error := None |}];
           input := input s; loading := false |}, log))
  \/
  (exists e,
     failed o /\
     handleSend_resume now o s log =
       ({| messages := messages s ++ [errorMessage now];
           input := input s; loading := false |}, log ++ [e])).
Proof.
  unfold handleSend_resume, succeeded, failed, assistantMessage.
  destruct o as [r|e]; cbn; [|right; eauto].
  destruct (Axios.data r) eqn:Hd; cbn;
    try (left; eexists _, _; split; [eexists; rewrite Hd; cbn; eauto|done]);
    right; eexists; split; eauto.
Qed.

(** An event of a session in which at most one request is in flight: an
    accepted send from Idle, the completion of the one pending request, or
    an event that changes neither transcript nor flag nor requests nor
    console. *)
Lemma gated_step_cases (c : Session) (e : event) :
  gate c ->
  (loading (ui c) = false /\ inflight c = [] /\
   blank (input (ui c)) = false /\
   exists now,
     event_time e = Some now /\
     step c e =
       {| ui := {| messages := messages (ui c) ++ [userMessage (input (ui c)) now];
                   input := []; loading := true |};
          inflight := [{| question := input (ui c) |}];
          console := console c |})
  \/
  (loading (ui c) = true /\
   exists req o now s log,
     inflight c = [req] /\ e = Settle 0 o now /\
     handleSend_resume now o (ui c) (console c) = (s, log) /\
     step c e = {| ui := s; inflight := []; console := log |})
  \/
  (messages (ui (step c e)) = messages (ui c) /\
   loading (ui (step c e)) = loading (ui c) /\
   inflight (step c e) = inflight c /\
   console (step c e) = console c).
Proof.
  unfold gate. intros Hg.
  destruct e as [text|q|key shift now|now|k o now]; cbn [step].
  - right; right. done.
  - right; right. done.
  - rewrite ChatFacts.handleSend_guard.
    destruct (bool_decide (key = Enter) && negb shift); [|right; right; done].
    destruct (blank (input (ui c))) eqn:Hb; [right; right; done|].
    destruct (loading (ui c)) eqn:Hl; [right; right; done|].
    cbn. left. destruct (inflight c); [|done]. eauto 10.
  - rewrite ChatFacts.handleSend_guard.
    destruct (blank (input (ui c))) eqn:Hb; [right; right; done|].
    destruct (loading (ui c)) eqn:Hl; [right; right; done|].
    cbn. left. destruct (inflight c); [|done]. eauto 10.
  - destruct (loading (ui c)) eqn:Hl.
    + destruct (inflight c) as [|req [|? ?]] eqn:Hi; try done.
      destruct k as [|k]; cbn; [|right; right; done].
      right; left. split; [done|].
      destruct (handleSend_resume now o (ui c) (console c)) as [s log] eqn:Hr.
      exists req, o, now, s, log. done.
    + destruct (inflight c) eqn:Hi; [|done]. right; right. done.
Qed.

(** X1.  The send button is disabled exactly when [handleSend] would do
    nothing, and the text area is disabled exactly while a reply is
    awaited. *)
Theorem send_button_disabled_iff_send_ignored
  (JSON_stringify : value -> jsstring) (toLocaleTimeString : Date -> jsstring)
  (c : Session) (now : Date) :
  let view := render JSON_stringify toLocaleTimeString (ui c) in
  (send_disabled view = true <-> handleSend now c = c) /\
  (send_disabled view = false <->
     length (messages (ui (handleSend now c))) =
       S (length (messages (ui c)))) /\
  (textarea_disabled view = true <-> phase c = Awaiting).
Proof.
  intros view. subst view. cbn [render send_disabled textarea_disabled].
  rewrite ChatFacts.handleSend_guard, JSFacts.not_truthy_trim.
  unfold phase.
  destruct (blank (input (ui c)) || loading (ui c)) eqn:Hg.
  - split; [done|]. split; [|by destruct (loading (ui c))].
    split; [done|]. lia.
  - split; [|split; [|by destruct (loading (ui c))]].
    + split; [done|]. intros H.
      apply (f_equal (fun c' => length (messages (ui c')))) in H.
      cbn in H. rewrite length_app in H. cbn in H. lia.
    + split; [|done]. intros _. cbn. rewrite length_app. cbn. lia.
Qed.

(** X2.  In every transcript of a session the roles alternate, starting
    with the assistant's greeting: the message at an even position is the
    assistant's, at an odd position the user's.  The transcript has an even
    number of messages exactly while a reply is awaited. *)
Theorem roles_alternate (now : Date) (evs : list event) :
  let c := run (mount now) evs in
  (forall i m, messages (ui c) !! i = Some m -> role m = role_at i) /\
  Nat.even (length (messages (ui c))) = loading (ui c).
Proof.
  apply (run_invariant
    (fun c => (forall i m, messages (ui c) !! i = Some m -> role m = role_at i) /\
              Nat.even (length (messages (ui c))) = loading (ui c)));
    [|apply ChatFacts.mount_gate|].
  - intros c e Hg [Hroles Hlen].
    assert (Hsnoc : forall m s,
      role m = role_at (length (messages (ui c))) ->
      messages s = messages (ui c) ++ [m] ->
      loading s = negb (loading (ui c)) ->
      (forall i m', messages s !! i = Some m' -> role m' = role_at i) /\
      Nat.even (length (messages s)) = loading s).
    { intros m s Hm -> ->. split.
      - intros i m' Hi. apply lookup_app_Some in Hi as [Hi|[Hge Hi]]; [eauto|].
        apply list_lookup_singleton_Some in Hi as [Hi <-].
        replace i with (length (messages (ui c))) by lia. done.
      - rewrite length_app, Nat.add_1_r, Nat.even_succ, <- Nat.negb_even.
        by rewrite Hlen. }
    destruct (gated_step_cases c e Hg)
      as [(Hl & _ & _ & t & _ & ->)
         |[(Hl & req & o & t & s & log & _ & _ & Hr & ->)
          |(-> & -> & _)]]; [| |done].
    + apply (Hsnoc (userMessage (input (ui c)) t)); cbn; [|done|by rewrite Hl].
      unfold role_at. by rewrite Hlen, Hl.
    + cbn [ui].
      destruct (handleSend_resume_cases t o (ui c) (console c))
        as [(a & d & _ & Hr')|(x & _ & Hr')]; rewrite Hr' in Hr;
        injection Hr as <- _;
        (eapply Hsnoc; cbn; [|done|by rewrite Hl]);
        unfold role_at; by rewrite Hlen, Hl.
  - split; [|done]. intros [|i] m; [|done]. by intros [= <-].
Qed.

(** X3.  Every message of a session's transcript is the greeting, or a
    user message whose text is not blank, or the fixed error message, or an
    assistant reply without the error flag.  So no blank question is ever
    recorded, and the error flag only comes with the fixed text. *)
Theorem transcript_messages_have_four_shapes
  (now : Date) (evs : list event) (m : Message) :
  m ∈ messages (ui (run (mount now) evs)) ->
  m = seed now \/
  (exists text t, m = userMessage text t /\ blank text = false) \/
  (exists t, m = errorMessage t) \/
  (exists answer d t,
     m = {| role := assistant; content := answer; timestamp := t;
            data := Some d; error := None |}).
Proof.
  revert m.
  apply (run_invariant
    (fun c => forall m, m ∈ messages (ui c) ->
       m = seed now \/
       (exists text t, m = userMessage text t /\ blank text = false) \/
       (exists t, m = errorMessage t) \/
       (exists answer d t,
          m = {| role := assistant; content := answer; timestamp := t;
                 data := Some d; error := None |})));
    [|apply ChatFacts.mount_gate|].
  - intros c e Hg Hc m.
    destruct (gated_step_cases c e Hg)
      as [(_ & _ & Hb & t & _ & ->)
         |[(_ & req & o & t & s & log & _ & _ & Hr & ->)
          |(-> & _)]]; [| |by apply Hc].
    + cbn. intros [Hin| ->%list_elem_of_singleton]%elem_of_app; [by apply Hc|].
      right; left. eauto.
    + cbn [ui].
      destruct (handleSend_resume_cases t o (ui c) (console c))
        as [(a & d & _ & Hr')|(x & _ & Hr')]; rewrite Hr' in Hr;
        injection Hr as <- _; cbn;
        (intros [Hin| ->%list_elem_of_singleton]%elem_of_app; [by apply Hc|]);
        eauto 10.
  - intros m ->%list_elem_of_singleton. by left.
Qed.

Lemma transcript_messages_have_four_shapes_witness :
  userMessage (lit "hi") 1 = seed 0 \/
  (exists text t, userMessage (lit "hi") 1 = userMessage text t /\
                  blank text = false) \/
  (exists t, userMessage (lit "hi") 1 = errorMessage t) \/
  (exists answer d t,
     userMessage (lit "hi") 1 =
       {| role := assistant; content := answer; timestamp := t;
          data := Some d; error := None |}).
Proof.
  apply (transcript_messages_have_four_shapes 0
           [Change (lit "hi"); SendClick 1] (userMessage (lit "hi") 1)).
  vm_compute. apply list_elem_of_further, list_elem_of_here.
Defined.

(** X4.  While a request is in flight it is the only one, the loading
    flag is set, and the question it carries is not blank and is the text
    of the last message of the transcript, a user message.  With no
    request in flight the flag is off. *)
Theorem pending_question_is_last_message (now : Date) (evs : list event) :
  let c := run (mount now) evs in
  match inflight c with
  | [] => loading (ui c) = false
  | req :: others =>
      others = [] /\ loading (ui c) = true /\ blank (question req) = false /\
      exists t, last (messages (ui c)) = Some (userMessage (question req) t)
  end.
Proof.
  apply (run_invariant
    (fun c => match inflight c with
              | [] => loading (ui c) = false
              | req :: others =>
                  others = [] /\ loading (ui c) = true /\
                  blank (question req) = false /\
                  exists t, last (messages (ui c)) =
                            Some (userMessage (question req) t)
              end));
    [|apply ChatFacts.mount_gate|done].
  intros c e Hg Hc.
  destruct (gated_step_cases c e Hg)
    as [(_ & _ & Hb & t & _ & ->)
       |[(_ & req & o & t & s & log & _ & _ & Hr & ->)
        |(-> & -> & -> & _)]]; [| |done].
  - cbn. split; [done|]. split; [done|]. split; [done|].
    exists t. by rewrite last_snoc.
  - cbn.
    destruct (handleSend_resume_cases t o (ui c) (console c))
      as [(a & d & _ & Hr')|(x & _ & Hr')]; rewrite Hr' in Hr;
      by injection Hr as <- _.
Qed.

(** X5.  The console holds one entry per error message of the
    transcript: every failed request is both shown and logged, and nothing
    else is logged. *)
Theorem one_log_entry_per_error_message (now : Date) (evs : list event) :
  let c := run (mount now) evs in
  length (console c) = length (error_messages (ui c)).
Proof.
  apply (run_invariant
    (fun c => length (console c) = length (error_messages (ui c))));
    [|apply ChatFacts.mount_gate|done].
  intros c e Hg Hc. unfold error_messages in *.
  destruct (gated_step_cases c e Hg)
    as [(_ & _ & _ & t & _ & ->)
       |[(_ & req & o & t & s & log & _ & _ & Hr & ->)
        |(-> & _ & _ & ->)]]; [| |done].
  - cbn [ui messages console]. rewrite filter_app.
    rewrite filter_cons_False by (cbn; done).
    rewrite filter_nil, app_nil_r. done.
  - cbn [ui console].
    destruct (handleSend_resume_cases t o (ui c) (console c))
      as [(a & d & _ & Hr')|(x & _ & Hr')]; rewrite Hr' in Hr;
      injection Hr as <- <-; cbn [messages]; rewrite filter_app.
    + rewrite filter_cons_False by (cbn; done).
      rewrite filter_nil, app_nil_r. done.
    + rewrite filter_cons_True by (cbn; done).
      rewrite filter_nil, !length_app. cbn. lia.
Qed.

Lemma example_questions_not_blank (q : jsstring) :
  q ∈ EXAMPLE_QUESTIONS -> blank q = false.
Proof.
  unfold EXAMPLE_QUESTIONS. intros Hq.
  repeat (apply elem_of_cons in Hq as [->|Hq]; [reflexivity|]).
  by apply elem_of_nil in Hq.
Qed.

(** X7.  While the example questions are offered, clicking one of them
    and then the send button sends exactly that question: the transcript
    becomes the greeting followed by the question, the request carries the
    question, the input buffer is empty again and the examples are gone. *)
Theorem example_click_then_send
  (JSON_stringify : value -> jsstring) (toLocaleTimeString : Date -> jsstring)
  (now : Date) (evs : list event) (q : jsstring) (t : Date) :
  let c := run (mount now) evs in
  let c' := run c [ExampleClick q; SendClick t] in
  examples (render JSON_stringify toLocaleTimeString (ui c)) =
    Some EXAMPLE_QUESTIONS ->
  q ∈ EXAMPLE_QUESTIONS ->
  messages (ui c') = [seed now; userMessage q t] /\
  inflight c' = [{| question := q |}] /\
  input (ui c') = [] /\
  examples (render JSON_stringify toLocaleTimeString (ui c')) = None.
Proof.
  intros c c' Hvis Hq. cbn [render examples] in Hvis.
  case_bool_decide as Hlen; [clear Hvis|done].
  pose proof (ChatFacts.transcript_length_in_general now evs) as Hgen.
  cbv zeta in Hgen. fold c in Hgen.
  assert (Hin : inflight c = []) by (destruct (inflight c); [done|cbn in Hgen; lia]).
  pose proof (ChatFacts.run_gate evs _ (ChatFacts.mount_gate now)) as Hg.
  fold c in Hg. unfold gate in Hg. rewrite Hin in Hg.
  assert (Hl : loading (ui c) = false) by (by destruct (loading (ui c))).
  destruct (ChatFacts.transcript_starts_with_seed now evs) as [rest Hrest].
  fold c in Hrest. rewrite Hrest in Hlen. destruct rest; [|done].
  subst c'. cbn [run foldl step].
  rewrite ChatFacts.handleSend_guard.
  cbn [with_ui ui setInput input loading inflight console messages].
  rewrite (example_questions_not_blank q Hq), Hl, Hin, Hrest. cbn.
  split; [done|]. split; [done|]. split; [done|]. done.
Qed.

Lemma example_click_then_send_witness :
  inflight (run (run (mount 0) [Change (lit "x"); Change []])
             [ExampleClick (lit "Show me supplier performance"); SendClick 5])
  = [{| question := lit "Show me supplier performance" |}].
Proof.
  apply (example_click_then_send (fun _ => []) (fun _ => []) 0
           [Change (lit "x"); Change []]
           (lit "Show me supplier performance") 5).
  - reflexivity.
  - unfold EXAMPLE_QUESTIONS. do 3 apply list_elem_of_further.
    apply list_elem_of_here.
Defined.

Lemma nondecreasing_snoc (l : list Date) (a b t : Date) :
  nondecreasing_from a l = true ->
  Forall (fun x => x <= b) l -> a <= b -> b <= t ->
  nondecreasing_from a (l ++ [t]) = true.
Proof.
  revert a. induction l as [|x l IH]; intros a Hs Hb Hab Hbt; cbn in *.
  - rewrite andb_true_r. apply N.leb_le. lia.
  - apply andb_true_iff in Hs as [Hax Hs]. rewrite Hax. cbn.
    inversion Hb; subst. by apply IH.
Qed.

(** Appending a message stamped with the reading of the current event
    keeps the time stamps in order. *)
Lemma timestamps_step (t0 b : Date) (c : Session) (e : event) :
  gate c ->
  let stamps c := timestamp <$> messages (ui c) in
  nondecreasing_from t0 (stamps c) = true ->
  Forall (fun x => x <= b) (stamps c) -> t0 <= b ->
  (forall t, event_time e = Some t -> b <= t) ->
  nondecreasing_from t0 (stamps (step c e)) = true /\
  forall b', b <= b' -> (forall t, event_time e = Some t -> t <= b') ->
    Forall (fun x => x <= b') (stamps (step c e)).
Proof.
  intros Hg stamps Hs Hb Ht0 Hev. subst stamps. cbn beta in *.
  assert (Hsnoc : forall m t,
    event_time e = Some t -> timestamp m = t ->
    nondecreasing_from t0 (timestamp <$> (messages (ui c) ++ [m])) = true /\
    forall b', b <= b' -> (forall t, event_time e = Some t -> t <= b') ->
      Forall (fun x => x <= b') (timestamp <$> (messages (ui c) ++ [m]))).
  { intros m t He Hm. rewrite fmap_app. cbn. rewrite Hm. split.
    - apply (nondecreasing_snoc _ _ b); auto.
    - intros b' Hb' Hle. apply Forall_app. split.
      + eapply Forall_impl; [exact Hb|]. cbn. intros x Hx. lia.
      + constructor; [by apply Hle | constructor]. }
  destruct (gated_step_cases c e Hg)
    as [(_ & _ & _ & t & He & ->)
       |[(_ & req & o & t & s & log & _ & -> & Hr & ->)
        |(-> & _)]].
  - by apply (Hsnoc _ t).
  - cbn [ui].
    destruct (handleSend_resume_cases t o (ui c) (console c))
      as [(a & d & _ & Hr')|(x & _ & Hr')]; rewrite Hr' in Hr;
      injection Hr as <- _; by apply (Hsnoc _ t).
  - split; [done|]. intros b' Hb' _.
    eapply Forall_impl; [exact Hb|]. cbn. intros x Hx. lia.
Qed.

Lemma timestamps_run (t0 : Date) (evs : list event) (c : Session) (b : Date) :
  gate c ->
  nondecreasing_from t0 (timestamp <$> messages (ui c)) = true ->
  Forall (fun x => x <= b) (timestamp <$> messages (ui c)) -> t0 <= b ->
  nondecreasing_from b (clock_readings evs) = true ->
  nondecreasing_from t0 (timestamp <$> messages (ui (run c evs))) = true.
Proof.
  revert c b. induction evs as [|e evs IH]; intros c b Hg Hs Hb Ht0 Hclock;
    [done|].
  change (run c (e :: evs)) with (run (step c e) evs).
  unfold clock_readings in Hclock. cbn [omap list_omap] in Hclock.
  destruct (event_time e) as [t|] eqn:He.
  - cbn in Hclock. apply andb_true_iff in Hclock as [Hbt Hclock].
    apply N.leb_le in Hbt.
    destruct (timestamps_step t0 b c e Hg Hs Hb Ht0) as [Hs' Hb'].
    { intros t' Ht'. congruence. }
    apply (IH (step c e) t); [by apply ChatFacts.step_gate|done| |lia|done].
    apply Hb'; [done|]. intros t' Ht'. assert (t' = t) as -> by congruence. lia.
  - destruct (timestamps_step t0 b c e Hg Hs Hb Ht0) as [Hs' Hb'].
    { intros t' Ht'. congruence. }
    apply (IH (step c e) b); [by apply ChatFacts.step_gate|done| |done|done].
    apply Hb'; [lia|]. intros t' Ht'. congruence.
Qed.

(** X8.  If the clock never goes back, the time stamps of the transcript
    never go back either: the messages are in the order of the clock
    readings at which they were appended, the greeting first. *)
Theorem timestamps_follow_the_clock (now : Date) (evs : list event) :
  nondecreasing_from now (clock_readings evs) = true ->
  nondecreasing_from now
    (timestamp <$> messages (ui (run (mount now) evs))) = true.
Proof.
  intros Hclock.
  apply (timestamps_run now evs (mount now) now);
    [apply ChatFacts.mount_gate| | |lia|done].
  - cbn. by rewrite N.leb_refl.
  - cbn. constructor; [lia|constructor].
Qed.

Lemma timestamps_follow_the_clock_witness :
  nondecreasing_from 5
    (timestamp <$> messages (ui (run (mount 5)
       [Change (lit "hi"); SendClick 7; SendClick 8;
        Settle 0 (Rejected TypeError) 9]))) = true.
Proof.
  apply (timestamps_follow_the_clock 5
           [Change (lit "hi"); SendClick 7; SendClick 8;
            Settle 0 (Rejected TypeError) 9]).
  reflexivity.
Defined.

(** X9.  When a request settles, the message list shows one entry more,
    the assistant's, with the bot avatar and the time of the settlement.  On
    success it shows the answer, and a "View Data" block exactly when the
    returned data is truthy; on failure it shows the fixed error text and
    no data block. *)
Theorem reply_is_rendered
  (JSON_stringify : value -> jsstring) (toLocaleTimeString : Date -> jsstring)
  (c : Session) (k : nat) (o : settled Axios.response) (now : Date) :
  is_Some (inflight c !! k) ->
  let views c := message_views (render JSON_stringify toLocaleTimeString (ui c)) in
  exists v,
    views (step c (Settle k o now)) = views c ++ [v] /\
    view_key v = length (messages (ui c)) /\
    view_avatar v = BotIcon /\
    view_time v = toLocaleTimeString now /\
    (forall answer d, succeeded o answer d ->
       view_text v = answer /\
       view_data v = if truthy d then Some (JSON_stringify d) else None) /\
    (failed o -> view_text v = VStr errorText /\ view_data v = None).
Proof.
  intros [req Hk] views. subst views. cbn [step]. rewrite Hk.
  destruct (ChatFacts.handleSend_resume_spec now o (ui c) (console c))
    as (m & log & Hr & Hrole & Htime & Hok & Hfail).
  rewrite Hr. cbn [ui render message_views messages].
  rewrite imap_app. cbn [imap]. rewrite Nat.add_0_r.
  eexists. split; [done|]. cbn.
  rewrite Hrole, Htime. split; [done|]. split; [done|]. split; [done|]. split.
  - intros answer d Hs. destruct (Hok answer d Hs) as (-> & Hd & _).
    unfold message_data. by rewrite Hd.
  - intros Hf. by rewrite (Hfail Hf).
Qed.

Lemma reply_is_rendered_witness :
  exists v,
    message_views (render (fun _ => lit "{}") (fun _ => lit "12:00")
      (ui (step (run (mount 0) [Change (lit "hi"); SendClick 1])
                (Settle 0 (Fulfilled {| Axios.data :=
                   VObj [(lit "answer", VStr (lit "ok"));
                         (lit "data", VObj [])] |}) 2))))
    = message_views (render (fun _ => lit "{}") (fun _ => lit "12:00")
        (ui (run (mount 0) [Change (lit "hi"); SendClick 1]))) ++ [v] /\
    view_data v = Some (lit "{}").
Proof.
  destruct (reply_is_rendered (fun _ => lit "{}") (fun _ => lit "12:00")
              (run (mount 0) [Change (lit "hi"); SendClick 1]) 0
              (Fulfilled {| Axios.data :=
                 VObj [(lit "answer", VStr (lit "ok"));
                       (lit "data", VObj [])] |}) 2)
    as (v & Hv & _ & _ & _ & Hok & _).
  - eexists. reflexivity.
  - exists v. split; [exact Hv|].
    apply (Hok (VStr (lit "ok")) (VObj [])).
    eexists. split; [reflexivity|]. split; reflexivity.
Defined.

(** X6.  The typing indicator is shown exactly while a request is in
    flight; the message list has one entry per message of the transcript;
    and the example questions are never offered while the indicator is
    shown. *)
Theorem typing_indicator_iff_request_in_flight
  (JSON_stringify : value -> jsstring) (toLocaleTimeString : Date -> jsstring)
  (now : Date) (evs : list event) :
  let c := run (mount now) evs in
  let view := render JSON_stringify toLocaleTimeString (ui c) in
  (typing_indicator view = true <-> exists req, inflight c = [req]) /\
  (typing_indicator view = false <-> inflight c = []) /\
  length (message_views view) = length (messages (ui c)) /\
  (typing_indicator view = true -> examples view = None).
Proof.
  intros c view. subst view. cbn [render typing_indicator message_views examples].
  destruct (ChatFacts.awaiting_iff_inflight now evs) as [Ha Hi].
  fold c in Ha, Hi. unfold phase in Ha, Hi.
  pose proof (ChatFacts.transcript_length_in_general now evs) as Hlen.
  cbv zeta in Hlen. fold c in Hlen.
  split; [|split; [|split]].
  - rewrite <- Ha. by destruct (loading (ui c)).
  - rewrite <- Hi. by destruct (loading (ui c)).
  - by rewrite length_imap.
  - intros Hl. rewrite Hl in Ha. destruct (proj1 Ha eq_refl) as [req Hreq].
    rewrite Hreq in Hlen. cbn in Hlen.
    case_bool_decide; [lia|done].
Qed.

End ChatViewFacts.

(* ===================================================================== *)
(** ** The dashboard: further properties                                  *)
(* ===================================================================== *)

Module DashboardViewFacts.
Import JS Dashboard DashboardView.

(** Two components consistent with the same settlements have made the
    same calls to [setData] and hold the same state. *)
Lemma consistent_same_state (prev : State)
  (a0 a1 a2 a3 : option (settled Axios.response)) (m m' : Mounted) :
  consistent prev a0 a1 a2 a3 m ->
  consistent prev a0 a1 a2 a3 m' ->
  state m = state m' /\ setData_calls m = setData_calls m' /\
  pending m = pending m'.
Proof.
  unfold consistent, pending. intros [_ H] [_ H'].
  destruct (all m) as [vs|], (all m') as [vs'|].
  - destruct H as (_ & _ & _ & -> & ->), H' as (_ & _ & _ & -> & ->). done.
  - exfalso. destruct H as (_ & Hrej & Hopen & _).
    destruct H' as [(Hrej' & _)|H']; [congruence|].
    destruct a0 as [[?|?]|], a1 as [[?|?]|], a2 as [[?|?]|], a3 as [[?|?]|];
      done.
  - exfalso. destruct H' as (_ & Hrej & Hopen & _).
    destruct H as [(Hrej' & _)|H]; [congruence|].
    destruct a0 as [[?|?]|], a1 as [[?|?]|], a2 as [[?|?]|], a3 as [[?|?]|];
      done.
  - destruct H as [(Hrej & -> & ->)|H], H' as [(Hrej' & -> & ->)|H'];
      try done.
    + exfalso.
      destruct a0 as [[?|?]|], a1 as [[?|?]|], a2 as [[?|?]|], a3 as [[?|?]|];
        done.
    + exfalso.
      destruct a0 as [[?|?]|], a1 as [[?|?]|], a2 as [[?|?]|], a3 as [[?|?]|];
        done.
    + destruct (value_of a0), (value_of a1), (value_of a2), (value_of a3);
        try done.
      assert (Heq : (state m, setData_calls m) = (state m', setData_calls m'))
        by congruence.
      by injection Heq as -> ->.
Qed.

(** A property read throws only on [null] and [undefined], and then a
    TypeError. *)
Lemma get_throws_on_nothing (v : value) (k : jsstring) (e : exn) :
  get v k = Throw e -> v = VNull \/ v = VUndefined.
Proof. destruct v; cbn; intros H; inversion H; auto. Qed.

Lemma get_throws_TypeError (v : value) (k : jsstring) (e : exn) :
  get v k = Throw e -> e = TypeError.
Proof. destruct v; cbn; intros H; inversion H; auto. Qed.

(** X10.  The order in which the four requests settle does not matter:
    two schedules in which each request first settles the same way lead to
    the same state and the same calls to [setData], and [Promise.all] has
    settled in both or in neither. *)
Theorem settlement_order_does_not_matter
  (prev : State) (evs evs' : list event) :
  (forall e, outcome_of e evs = outcome_of e evs') ->
  state (run (mount prev) evs) = state (run (mount prev) evs') /\
  setData_calls (run (mount prev) evs) = setData_calls (run (mount prev) evs') /\
  pending (run (mount prev) evs) = pending (run (mount prev) evs').
Proof.
  intros Hsame.
  pose proof (DashboardFacts.run_consistent prev evs) as H.
  pose proof (DashboardFacts.run_consistent prev evs') as H'.
  rewrite !Hsame in H. by apply (consistent_same_state prev _ _ _ _ _ _ H H').
Qed.

Lemma settlement_order_does_not_matter_witness :
  state (run (mount initial) Scenarios.all_succeed) =
  state (run (mount initial)
    [Settle getAlerts (Fulfilled Scenarios.alerts_response);
     Settle getInventorySummary (Fulfilled Scenarios.inventory_response);
     Settle getStockoutRisks (Fulfilled Scenarios.risks_response);
     Settle getAlerts (Rejected TypeError);
     Settle getSupplierPerformance (Fulfilled Scenarios.suppliers_response)]).
Proof.
  apply (settlement_order_does_not_matter initial Scenarios.all_succeed).
  intros e. destruct e; reflexivity.
Defined.

(** The state after four fulfilled requests. *)
Lemma all_fulfilled_state (prev : State) (evs : list event)
  (r0 r1 r2 r3 : Axios.response) :
  outcome_of getAlerts evs = Some (Fulfilled r0) ->
  outcome_of getInventorySummary evs = Some (Fulfilled r1) ->
  outcome_of getStockoutRisks evs = Some (Fulfilled r2) ->
  outcome_of getSupplierPerformance evs = Some (Fulfilled r3) ->
  (state (run (mount prev) evs), setData_calls (run (mount prev) evs)) =
    commit_or_catch prev [r0; r1; r2; r3].
Proof.
  intros H0 H1 H2 H3.
  destruct (DashboardFacts.run_consistent prev evs) as [_ H].
  rewrite H0, H1, H2, H3 in H.
  destruct (all (run (mount prev) evs)) as [vs|].
  - by destruct H as (_ & _ & Hopen & _).
  - by destruct H as [(Hrej & _)|H].
Qed.

(** X11.  When the four requests are fulfilled and [alerts], [risks] and
    [suppliers] can be read off their bodies, the snapshot committed is
    exactly the fetched data, the inventory summary being the whole body of
    its response, with loading off; it is the only call to [setData]. *)
Theorem all_fulfilled_commits_fetched_data
  (prev : State) (evs : list event) (r0 r1 r2 r3 : Axios.response)
  (a r s : value) :
  outcome_of getAlerts evs = Some (Fulfilled r0) ->
  outcome_of getInventorySummary evs = Some (Fulfilled r1) ->
  outcome_of getStockoutRisks evs = Some (Fulfilled r2) ->
  outcome_of getSupplierPerformance evs = Some (Fulfilled r3) ->
  get (Axios.data r0) (lit "alerts") = Normal a ->
  get (Axios.data r2) (lit "risks") = Normal r ->
  get (Axios.data r3) (lit "suppliers") = Normal s ->
  let fetched := {| alerts := a; inventory := Axios.data r1;
                    stockoutRisks := r; suppliers := s; loading := false |} in
  state (run (mount prev) evs) = fetched /\
  setData_calls (run (mount prev) evs) = [NewSnapshot fetched].
Proof.
  intros H0 H1 H2 H3 Ha Hr Hs fetched.
  pose proof (all_fulfilled_state prev evs r0 r1 r2 r3 H0 H1 H2 H3) as H.
  unfold commit_or_catch, snapshot in H. rewrite Ha, Hr, Hs in H. cbn in H.
  by injection H as -> ->.
Qed.

Lemma all_fulfilled_commits_fetched_data_witness :
  state (run (mount initial) Scenarios.all_succeed) =
    {| alerts := VArr [Scenarios.an_alert];
       inventory := Scenarios.an_inventory_summary;
       stockoutRisks := VArr [Scenarios.a_risk 2];
       suppliers := VArr [Scenarios.a_supplier];
       loading := false |}.
Proof.
  apply (all_fulfilled_commits_fetched_data initial Scenarios.all_succeed
           Scenarios.alerts_response Scenarios.inventory_response
           Scenarios.risks_response Scenarios.suppliers_response);
    reflexivity.
Defined.

(** X12.  A fulfilled response whose body is [null] or missing counts as
    a failure when it is the alerts, risks or suppliers response: nothing is
    committed, the data keeps its prior values and loading is cleared.  A
    [null] body of the inventory response is no failure: it is committed as
    the inventory summary. *)
Theorem null_body_is_a_failure_except_inventory
  (prev : State) (evs : list event) (r0 r1 r2 r3 : Axios.response) :
  outcome_of getAlerts evs = Some (Fulfilled r0) ->
  outcome_of getInventorySummary evs = Some (Fulfilled r1) ->
  outcome_of getStockoutRisks evs = Some (Fulfilled r2) ->
  outcome_of getSupplierPerformance evs = Some (Fulfilled r3) ->
  let m := run (mount prev) evs in
  let no_body v := v = VNull \/ v = VUndefined in
  (no_body (Axios.data r0) \/ no_body (Axios.data r2) \/ no_body (Axios.data r3) ->
   state m = clear_loading prev /\ setData_calls m = [ClearLoading]) /\
  (~ (no_body (Axios.data r0) \/ no_body (Axios.data r2) \/ no_body (Axios.data r3)) ->
   inventory (state m) = Axios.data r1 /\
   exists s, setData_calls m = [NewSnapshot s]).
Proof.
  intros H0 H1 H2 H3 m no_body. subst m no_body. cbn beta.
  pose proof (all_fulfilled_state prev evs r0 r1 r2 r3 H0 H1 H2 H3) as H.
  unfold commit_or_catch, snapshot in H. split.
  - intros Hnull.
    destruct (get (Axios.data r0) (lit "alerts")) as [a|x] eqn:Ha;
      [|cbn in H; by injection H as -> ->].
    destruct (get (Axios.data r2) (lit "risks")) as [r|x] eqn:Hr;
      [|cbn in H; by injection H as -> ->].
    destruct (get (Axios.data r3) (lit "suppliers")) as [s|x] eqn:Hs;
      [|cbn in H; by injection H as -> ->].
    exfalso.
    destruct Hnull as [[Hn|Hn]|[[Hn|Hn]|[Hn|Hn]]]; rewrite Hn in *; done.
  - intros Hbody.
    destruct (get (Axios.data r0) (lit "alerts")) as [a|x] eqn:Ha.
    2: { apply get_throws_on_nothing in Ha. tauto. }
    destruct (get (Axios.data r2) (lit "risks")) as [r|x] eqn:Hr.
    2: { apply get_throws_on_nothing in Hr. tauto. }
    destruct (get (Axios.data r3) (lit "suppliers")) as [s|x] eqn:Hs.
    2: { apply get_throws_on_nothing in Hs. tauto. }
    cbn in H. injection H as -> ->. eauto.
Qed.

Lemma null_body_is_a_failure_except_inventory_witness :
  state (run (mount initial)
    [Settle getAlerts (Fulfilled {| Axios.data := VNull |});
     Settle getInventorySummary (Fulfilled Scenarios.inventory_response);
     Settle getStockoutRisks (Fulfilled Scenarios.risks_response);
     Settle getSupplierPerformance (Fulfilled Scenarios.suppliers_response)])
  = clear_loading initial.
Proof.
  apply (null_body_is_a_failure_except_inventory initial
    [Settle getAlerts (Fulfilled {| Axios.data := VNull |});
     Settle getInventorySummary (Fulfilled Scenarios.inventory_response);
     Settle getStockoutRisks (Fulfilled Scenarios.risks_response);
     Settle getSupplierPerformance (Fulfilled Scenarios.suppliers_response)]
    {| Axios.data := VNull |} Scenarios.inventory_response
    Scenarios.risks_response Scenarios.suppliers_response);
    try reflexivity.
  left. left. reflexivity.
Defined.

(** What a settlement does to the calls and the console: nothing, or one
    commit, or one error logged with loading cleared. *)
Lemma step_calls_and_console (m : Mounted) (ev : event) :
  (setData_calls (step m ev) = setData_calls m /\
   console (step m ev) = console m /\ state (step m ev) = state m)
  \/
  (pending m = true /\
   exists s, setData_calls (step m ev) = setData_calls m ++ [NewSnapshot s] /\
             console (step m ev) = console m)
  \/
  (pending m = true /\
   exists e, setData_calls (step m ev) = setData_calls m ++ [ClearLoading] /\
             console (step m ev) = console m ++ [e] /\
             ((exists ep, ev = Settle ep (Rejected e) /\
                          settled_requests m !! index ep = Some false) \/
              (e = TypeError /\ exists ep r, ev = Settle ep (Fulfilled r)))).
Proof.
  destruct ev as [ep o]. cbn [step]. unfold pending.
  destruct (settled_requests m !! index ep) as [[|]|] eqn:Hflag;
    [by left| |by left].
  unfold all_react. cbn [all mark_settled].
  destruct (all m) as [values|]; [|by left].
  destruct o as [r|e].
  - destruct (all_values _) as [results|]; [|by left].
    unfold fetchDashboardData_resume. cbn [await bind].
    destruct (snapshot results) as [s|x] eqn:Hs; cbn.
    + right; left. eauto.
    + right; right. split; [done|]. exists x. split; [done|]. split; [done|].
      right. split; [|eauto].
      unfold snapshot in Hs.
      destruct results as [|r0 [|r1 [|r2 [|r3 [|? ?]]]]]; try by injection Hs.
      destruct (get (Axios.data r0) _) eqn:H0; cbn in Hs;
        [|apply get_throws_TypeError in H0; congruence].
      destruct (get (Axios.data r2) _) eqn:H2; cbn in Hs;
        [|apply get_throws_TypeError in H2; congruence].
      destruct (get (Axios.data r3) _) eqn:H3; cbn in Hs;
        [|apply get_throws_TypeError in H3; congruence].
      done.
  - unfold fetchDashboardData_resume. cbn.
    right; right. split; [done|]. exists e. eauto 10.
Qed.

Lemma step_frozen (m : Mounted) (ev : event) :
  pending m = false ->
  state (step m ev) = state m /\
  setData_calls (step m ev) = setData_calls m /\
  console (step m ev) = console m /\
  pending (step m ev) = false.
Proof.
  intros Hp.
  destruct (step_calls_and_console m ev)
    as [(? & ? & ?)|[(Hp' & _)|(Hp' & _)]]; [|congruence..].
  split; [done|]. split; [done|]. split; [done|].
  by apply DashboardFacts.step_settled_stays.
Qed.

(** X13.  Once the fetch has settled, nothing that settles later has any
    effect: whatever events follow, the state, the calls to [setData] and
    the console stay as they are. *)
Theorem late_settlements_change_nothing
  (prev : State) (evs evs' : list event) :
  pending (run (mount prev) evs) = false ->
  let m := run (mount prev) evs in
  let m' := run (mount prev) (evs ++ evs') in
  state m' = state m /\ setData_calls m' = setData_calls m /\
  console m' = console m /\ pending m' = false.
Proof.
  intros Hp m m'. subst m m'. unfold run in *. rewrite foldl_app.
  revert Hp. generalize (foldl step (mount prev) evs). intros m.
  induction evs' as [|ev evs' IH] in m |- *; intros Hp; [done|].
  cbn [foldl].
  destruct (step_frozen m ev Hp) as (Hs & Hc & Hl & Hp').
  destruct (IH _ Hp') as (-> & -> & -> & ->). done.
Qed.

Lemma late_settlements_change_nothing_witness :
  console (run (mount initial)
    ([Settle getStockoutRisks (Rejected Scenarios.network_error)] ++
     [Settle getAlerts (Rejected TypeError);
      Settle getStockoutRisks (Fulfilled Scenarios.risks_response)]))
  = console (run (mount initial)
      [Settle getStockoutRisks (Rejected Scenarios.network_error)]).
Proof.
  apply (late_settlements_change_nothing initial
    [Settle getStockoutRisks (Rejected Scenarios.network_error)]
    [Settle getAlerts (Rejected TypeError);
     Settle getStockoutRisks (Fulfilled Scenarios.risks_response)]).
  reflexivity.
Defined.

Lemma consistent_calls (prev : State)
  (a0 a1 a2 a3 : option (settled Axios.response)) (m : Mounted) :
  consistent prev a0 a1 a2 a3 m ->
  (pending m = true /\ setData_calls m = []) \/
  (pending m = false /\ exists c, setData_calls m = [c]).
Proof.
  unfold consistent, pending. intros [_ H].
  destruct (all m) as [vs|].
  - left. by destruct H as (_ & _ & _ & _ & ->).
  - right. split; [done|]. destruct H as [(_ & _ & ->)|H]; [eauto|].
    destruct (value_of a0), (value_of a1), (value_of a2), (value_of a3);
      try done.
    unfold commit_or_catch in H.
    destruct (snapshot _); injection H as _ ->; eauto.
Qed.

Lemma consistent_flag (prev : State)
  (a0 a1 a2 a3 : option (settled Axios.response)) (m : Mounted)
  (ep : endpoint) :
  consistent prev a0 a1 a2 a3 m ->
  settled_requests m !! index ep =
    Some (is_settled match ep with
                     | getAlerts => a0
                     | getInventorySummary => a1
                     | getStockoutRisks => a2
                     | getSupplierPerformance => a3
                     end).
Proof. intros [-> _]. by destruct ep. Qed.

Lemma outcome_of_stays (ep : endpoint) (evs : list event) (ev : event)
  (o : settled Axios.response) :
  outcome_of ep evs = Some o -> outcome_of ep (evs ++ [ev]) = Some o.
Proof. intros H. by rewrite DashboardFacts.outcome_of_snoc, H. Qed.

(** A fulfilment that settles a pending [Promise.all] is the last of
    four. *)
Lemma last_fulfilment (prev : State)
  (a0 a1 a2 a3 : option (settled Axios.response)) (m m' : Mounted)
  (ep : endpoint) (r : Axios.response) :
  consistent prev a0 a1 a2 a3 m -> pending m = true ->
  consistent prev
    (first_settlement getAlerts (Settle ep (Fulfilled r)) a0)
    (first_settlement getInventorySummary (Settle ep (Fulfilled r)) a1)
    (first_settlement getStockoutRisks (Settle ep (Fulfilled r)) a2)
    (first_settlement getSupplierPerformance (Settle ep (Fulfilled r)) a3)
    m' ->
  pending m' = false ->
  forall e, exists r',
    first_settlement e (Settle ep (Fulfilled r))
      match e with
      | getAlerts => a0
      | getInventorySummary => a1
      | getStockoutRisks => a2
      | getSupplierPerformance => a3
      end = Some (Fulfilled r').
Proof.
  unfold consistent, pending. intros [_ H] Hp [_ H'] Hp'.
  destruct (all m) as [vs|]; [clear Hp|done].
  destruct (all m') as [vs'|]; [done|clear Hp'].
  destruct H as (_ & Hrej & _).
  destruct a0 as [[r0|x0]|]; cbn in Hrej; try discriminate Hrej;
    destruct a1 as [[r1|x1]|]; cbn in Hrej; try discriminate Hrej;
    destruct a2 as [[r2|x2]|]; cbn in Hrej; try discriminate Hrej;
    destruct a3 as [[r3|x3]|]; cbn in Hrej; try discriminate Hrej;
    clear Hrej.
  all: destruct ep;
    rewrite DashboardFacts.first_settlement_same,
      !DashboardFacts.first_settlement_other in H' by done;
    cbn in H'; destruct H' as [(Hrej' & _)|H']; try done.
  all: intros e; destruct e;
    rewrite ?DashboardFacts.first_settlement_same,
      ?DashboardFacts.first_settlement_other by done; eauto.
Qed.

(** X14.  The console and the calls to [setData] go together.  Either
    nothing is logged and [setData] was not called yet or was called with a
    new snapshot; or exactly one error is logged and the one call cleared
    the loading flag, and then the error is the reason of a rejected
    request, or a TypeError from reading a body when all four requests were
    fulfilled. *)
Theorem logged_error_is_the_failure (prev : State) (evs : list event) :
  let m := run (mount prev) evs in
  (console m = [] /\
   (setData_calls m = [] \/ exists s, setData_calls m = [NewSnapshot s]))
  \/
  (exists e,
     console m = [e] /\ setData_calls m = [ClearLoading] /\
     ((exists ep, outcome_of ep evs = Some (Rejected e)) \/
      (e = TypeError /\ forall ep, fulfilled ep evs))).
Proof.
  cbv zeta. induction evs as [|ev evs IH] using rev_ind; [left; cbn; eauto|].
  pose proof (DashboardFacts.run_consistent prev evs) as H.
  pose proof (DashboardFacts.run_consistent prev (evs ++ [ev])) as H'.
  rewrite !DashboardFacts.outcome_of_snoc in H'.
  rewrite DashboardFacts.run_after_settlement in *.
  set (m := run (mount prev) evs) in *.
  destruct (step_calls_and_console m ev)
    as [(Hc & Hl & _)|[(Hp & s & Hc & Hl)|(Hp & e & Hc & Hl & Hwhy)]].
  - rewrite Hc, Hl.
    destruct IH as [IH|(e & ? & ? & [[ep Hep]|[-> Hall]])]; [by left|right..].
    + exists e. split; [done|]. split; [done|]. left. exists ep.
      by apply outcome_of_stays.
    + exists TypeError. split; [done|]. split; [done|]. right. split; [done|].
      intros ep. destruct (Hall ep) as [r Hr]. exists r.
      by apply outcome_of_stays.
  - destruct (consistent_calls _ _ _ _ _ _ H) as [[_ Hnil]|[? _]]; [|congruence].
    destruct IH as [[Hlog _]|(e & _ & ? & _)]; [|congruence].
    left. rewrite Hl, Hc, Hnil, Hlog. eauto.
  - destruct (consistent_calls _ _ _ _ _ _ H) as [[_ Hnil]|[? _]]; [|congruence].
    destruct IH as [[Hlog _]|(e' & _ & ? & _)]; [|congruence].
    right. exists e. rewrite Hl, Hc, Hnil, Hlog.
    split; [done|]. split; [done|].
    destruct Hwhy as [(ep & -> & Hflag)|(-> & ep & r & ->)].
    + left. exists ep.
      rewrite (consistent_flag _ _ _ _ _ _ ep H) in Hflag.
      rewrite DashboardFacts.outcome_of_snoc,
        DashboardFacts.first_settlement_same.
      injection Hflag as Hflag.
      destruct ep; cbn in Hflag;
        match goal with
        | |- context [outcome_of ?x evs] =>
            destruct (outcome_of x evs); cbn in Hflag; done
        end.
    + right. split; [done|]. intros e.
      assert (Hp' : pending (step m (Settle ep (Fulfilled r))) = false).
      { destruct (consistent_calls _ _ _ _ _ _ H') as [[_ Hnil']|[? _]];
          [|done]. rewrite Hc in Hnil'. by destruct (setData_calls m). }
      destruct (last_fulfilment _ _ _ _ _ _ _ _ _ H Hp H' Hp' e) as [r' Hr'].
      exists r'. rewrite DashboardFacts.outcome_of_snoc. by destruct e.
Qed.

(** *** What is rendered *)

Section RenderFacts.

Variable toLowerCase : jsstring -> jsstring.
Variable ToString : value -> completion jsstring.
Variable toLocaleString : value -> completion value.

Abbreviation render := (render toLowerCase ToString toLocaleString).
Abbreviation alert_item := (alert_item ToString).
Abbreviation supplier_card := (supplier_card ToString).

(** A render that yields the board went through all seven steps. *)
Lemma render_board (s : State) (n low val ns : value)
  (items : list AlertItem) (rows : list Row) (cards : list SupplierCard) :
  render s = Normal (Board n low val ns items rows cards) ->
  loading s = false /\
  length_of (alerts s) = Normal n /\
  low_stock_items s = Normal low /\
  inventory_value toLocaleString s = Normal val /\
  length_of (suppliers s) = Normal ns /\
  array_map alert_item (alerts s) = Normal items /\
  stockout_rows toLowerCase s = Normal rows /\
  array_map supplier_card (suppliers s) = Normal cards.
Proof.
  unfold DashboardView.render.
  destruct (loading s); [done|].
  destruct (length_of (alerts s)); cbn; [|done].
  destruct (low_stock_items s); cbn; [|done].
  destruct (inventory_value toLocaleString s); cbn; [|done].
  destruct (length_of (suppliers s)); cbn; [|done].
  destruct (array_map _ (alerts s)); cbn; [|done].
  destruct (stockout_rows toLowerCase s); cbn; [|done].
  destruct (array_map _ (suppliers s)); cbn; [|done].
  intros [= -> -> -> -> -> -> ->]. done.
Qed.

Lemma render_not_placeholder (s : State) :
  loading s = false -> render s <> Normal LoadingState.
Proof.
  unfold DashboardView.render. intros ->.
  destruct (length_of (alerts s)); cbn; [|done].
  destruct (low_stock_items s); cbn; [|done].
  destruct (inventory_value toLocaleString s); cbn; [|done].
  destruct (length_of (suppliers s)); cbn; [|done].
  destruct (array_map _ (alerts s)); cbn; [|done].
  destruct (stockout_rows toLowerCase s); cbn; [|done].
  destruct (array_map _ (suppliers s)); cbn; done.
Qed.

(** A successful [map] yields one element per item, element [j] computed
    from item [j] and its index. *)
Lemma map_with_index_spec {A : Type} (f : value -> nat -> completion A)
  (items : list value) (i : nat) (ys : list A) :
  map_with_index f i items = Normal ys ->
  length ys = length items /\
  forall j y, ys !! j = Some y ->
    exists x, items !! j = Some x /\ f x (i + j)%nat = Normal y.
Proof.
  revert i ys. induction items as [|x items IH]; intros i ys H; cbn in H.
  - injection H as <-. done.
  - destruct (f x i) as [y|] eqn:Hy; cbn in H; [|done].
    destruct (map_with_index f (S i) items) as [ys'|] eqn:Hys; cbn in H;
      [|done].
    injection H as <-. destruct (IH _ _ Hys) as [Hlen Hrows].
    split; [cbn; by rewrite Hlen|].
    intros [|j] y' Hj; cbn in Hj.
    + injection Hj as <-. exists x. by rewrite Nat.add_0_r.
    + destruct (Hrows j y' Hj) as (x' & Hx' & Hf).
      exists x'. split; [done|]. by rewrite Nat.add_succ_r.
Qed.

Lemma array_map_spec {A : Type} (f : value -> nat -> completion A)
  (v : value) (ys : list A) :
  array_map f v = Normal ys ->
  exists items,
    v = VArr items /\ length ys = length items /\
    forall j y, ys !! j = Some y ->
      exists x, items !! j = Some x /\ f x j = Normal y.
Proof.
  destruct v; try done. cbn. intros H.
  destruct (map_with_index_spec f _ _ _ H) as [Hlen Hys]. eauto.
Qed.

(** X15.  From the component as mounted, the placeholder is rendered
    exactly while the fetch has not settled, without reading the data. *)
Theorem placeholder_until_fetch_settles (evs : list event) :
  let m := run (mount initial) evs in
  render (state m) = Normal LoadingState <-> pending m = true.
Proof.
  intros m.
  destruct (DashboardFacts.consistent_loading initial _ _ _ _ m eq_refl
              (DashboardFacts.run_consistent initial evs)) as [Hl _].
  rewrite <- Hl. split.
  - intros H. destruct (loading (state m)) eqn:Hls; [done|].
    by apply render_not_placeholder in Hls.
  - intros H. unfold DashboardView.render. by rewrite H.
Qed.

(** X16.  After a refresh in which a request was rejected, the dashboard
    renders, empty: no alert, no low-stock item, no inventory value, no
    supplier, no row and no card. *)
Theorem failed_refresh_renders_empty_board (evs : list event) :
  (exists e, rejected e evs) ->
  render (state (run (mount initial) evs)) =
    Normal (Board (VNum 0) (VNum 0) VUndefined (VNum 0) [] [] []).
Proof.
  intros Hrej.
  destruct (DashboardFacts.rejection_keeps_prior_state initial evs Hrej)
    as [-> _].
  reflexivity.
Qed.

(** X17.  Whenever the board renders, alerts, stockoutRisks and
    suppliers are arrays; the figures of the Active Alerts and Active
    Suppliers cards are the numbers of alerts listed and of supplier cards
    shown; every alert and every supplier is shown, in order, with its
    index as key; and the table has [min 6] of the risks. *)
Theorem board_counts_match_lists (s : State) (n low val ns : value)
  (items : list AlertItem) (rows : list Row) (cards : list SupplierCard) :
  render s = Normal (Board n low val ns items rows cards) ->
  exists A R S,
    alerts s = VArr A /\ stockoutRisks s = VArr R /\ suppliers s = VArr S /\
    n = VNum (Z.of_nat (length items)) /\ length items = length A /\
    ns = VNum (Z.of_nat (length cards)) /\ length cards = length S /\
    length rows = Nat.min 6 (length R) /\
    (forall i item, items !! i = Some item ->
       exists alert, A !! i = Some alert /\ alert_item alert i = Normal item) /\
    (forall i card, cards !! i = Some card ->
       exists supplier, S !! i = Some supplier /\
                        supplier_card supplier i = Normal card).
Proof.
  intros H.
  apply render_board in H as (_ & Hn & _ & _ & Hns & Hitems & Hrows & Hcards).
  apply array_map_spec in Hitems as (A & HA & HlenA & HitemsA).
  apply array_map_spec in Hcards as (S & HS & HlenS & HcardsS).
  unfold stockout_rows in Hrows.
  destruct (stockoutRisks s) as [| | | | |R|] eqn:HR; try done. cbn in Hrows.
  apply DashboardFacts.map_from_spec in Hrows as [HlenR _].
  rewrite length_take in HlenR.
  exists A, R, S. rewrite HA, HS in *. cbn in Hn, Hns.
  injection Hn as <-. injection Hns as <-. rewrite HlenA, HlenS.
  repeat (split; [done|]). done.
Qed.

End RenderFacts.

(** X23.  The rows of the stock-out table are computed without a throw
    exactly when each of the first six risks is a value other than [null]
    and [undefined] whose [urgency] is a string; a risk beyond the sixth is
    never looked at.  A row then carries the class [status-pill] followed
    by the lower-cased urgency. *)
Theorem stockout_table_renders_iff_urgency_is_text
  (toLowerCase : jsstring -> jsstring) (s : State) (risks : list value) :
  stockoutRisks s = VArr risks ->
  ((exists rows, stockout_rows toLowerCase s = Normal rows) <->
   forall i risk, (i < 6)%nat -> risks !! i = Some risk ->
     exists u, get risk (lit "urgency") = Normal (VStr u)) /\
  (forall rows i row,
     stockout_rows toLowerCase s = Normal rows -> rows !! i = Some row ->
     exists risk u,
       risks !! i = Some risk /\
       get risk (lit "urgency") = Normal (VStr u) /\
       className row = lit "status-pill " ++ toLowerCase u /\
       urgency row = VStr u).
Proof.
  intros Hs.
  assert (Hrow : forall risk i row,
    risk_row toLowerCase risk i = Normal row ->
    exists u, get risk (lit "urgency") = Normal (VStr u) /\
              className row = lit "status-pill " ++ toLowerCase u /\
              urgency row = VStr u).
  { intros risk i row. unfold risk_row.
    destruct (get risk (lit "description")); cbn; [|done].
    destruct (get risk (lit "days_until_stockout")); cbn; [|done].
    destruct (get risk (lit "urgency")) as [u|]; cbn; [|done].
    destruct u; cbn; try done. intros [= <-]. eauto. }
  assert (Hok : forall risk i u,
    get risk (lit "urgency") = Normal (VStr u) ->
    exists row, risk_row toLowerCase risk i = Normal row).
  { intros risk i u Hu. unfold risk_row.
    destruct (JSFacts.get_normal_any_key _ _ (lit "description") _ Hu)
      as [d ->].
    destruct (JSFacts.get_normal_any_key _ _ (lit "days_until_stockout") _ Hu)
      as [n ->].
    rewrite Hu. cbn. eauto. }
  unfold stockout_rows. rewrite Hs. cbn [slice_0_6 bind]. split; [split|].
  - intros [rows Hrows] i risk Hi Hrisk.
    destruct (DashboardFacts.map_from_spec _ _ _ _ Hrows) as [Hlen Hspec].
    assert (Htake : take 6 risks !! i = Some risk)
      by (apply lookup_take_Some; split; [done|lia]).
    destruct (lookup_lt_is_Some_2 rows i) as [row Hr].
    { rewrite Hlen. by apply lookup_lt_Some in Htake. }
    destruct (Hspec i row Hr) as (risk' & Hrisk' & Hf).
    rewrite Htake in Hrisk'. injection Hrisk' as <-.
    destruct (Hrow _ _ _ Hf) as (u & Hu & _). eauto.
  - intros Hall. apply DashboardFacts.map_from_total.
    intros j x Hj. apply lookup_take_Some in Hj as [Hj Hlt].
    destruct (Hall j x Hlt Hj) as [u Hu]. by apply (Hok x _ u).
  - intros rows i row Hrows Hi.
    destruct (DashboardFacts.map_from_spec _ _ _ _ Hrows) as [_ Hspec].
    destruct (Hspec i row Hi) as (risk & Hrisk & Hf).
    apply lookup_take_Some in Hrisk as [Hrisk _].
    destruct (Hrow _ _ _ Hf) as (u & Hu & Hc & Hurg). eauto 10.
Qed.

Lemma stockout_table_renders_iff_urgency_is_text_witness :
  exists rows,
    stockout_rows Scenarios.ascii_toLowerCase
      Scenarios.dashboard_with_eight_risks = Normal rows.
Proof.
  apply (proj1 (stockout_table_renders_iff_urgency_is_text
                  Scenarios.ascii_toLowerCase
                  Scenarios.dashboard_with_eight_risks
                  Scenarios.eight_risks eq_refl)).
  intros i risk Hi Hrisk.
  do 6 (destruct i as [|i]; [injection Hrisk as <-; eexists; reflexivity|]).
  lia.
Defined.

Lemma failed_refresh_renders_empty_board_witness :
  render Scenarios.ascii_toLowerCase (fun _ => Throw TypeError)
    (fun _ => Throw TypeError)
    (state (run (mount initial) Scenarios.supplier_failure)) =
    Normal (Board (VNum 0) (VNum 0) VUndefined (VNum 0) [] [] []).
Proof.
  apply (failed_refresh_renders_empty_board Scenarios.ascii_toLowerCase
           (fun _ => Throw TypeError) (fun _ => Throw TypeError)
           Scenarios.supplier_failure).
  exists getSupplierPerformance, Scenarios.network_error. reflexivity.
Defined.

Lemma board_counts_match_lists_witness :
  exists A R S,
    VArr [Scenarios.an_alert] = VArr A /\ VArr Scenarios.eight_risks = VArr R /\
    VArr [] = VArr S /\
    VNum 1 = VNum (Z.of_nat 1) /\ 1%nat = length A /\
    VNum 0 = VNum (Z.of_nat 0) /\ 0%nat = length S /\
    6%nat = Nat.min 6 (length R).
Proof.
  destruct (board_counts_match_lists Scenarios.ascii_toLowerCase
              (fun _ => Normal (lit "critical")) (fun v => Normal v)
              {| alerts := VArr [Scenarios.an_alert]; inventory := VNull;
                 stockoutRisks := VArr Scenarios.eight_risks;
                 suppliers := VArr []; loading := false |}
              (VNum 1) (VNum 0) VUndefined (VNum 0)
              [{| alert_key := 0;
                  alert_className := lit "alert-item " ++ lit "critical";
                  alert_severity := VStr (lit "critical");
                  alert_type := VStr (lit "stockout");
                  alert_message := VStr (lit "Battery pack below safety stock");
                  alert_action := VStr (lit "Expedite order") |}]
              (match stockout_rows Scenarios.ascii_toLowerCase
                       Scenarios.dashboard_with_eight_risks with
               | Normal rows => rows
               | Throw _ => []
               end)
              [] eq_refl)
    as (A & R & S & HA & HR & HS & Hn & HlenA & Hns & HlenS & HlenR & _).
  exists A, R, S. repeat (split; [assumption|]). exact HlenR.
Defined.

(** X18.  When the four requests are fulfilled and what is read as
    [alerts] off the response is not an array, as when the body lacks the
    key, the snapshot is committed all the same, and the dashboard then
    fails to render. *)
Theorem alerts_not_an_array_breaks_render
  (toLowerCase : jsstring -> jsstring) (ToString : value -> completion jsstring)
  (toLocaleString : value -> completion value)
  (prev : State) (evs : list event) (r0 r1 r2 r3 : Axios.response)
  (a r s : value) :
  outcome_of getAlerts evs = Some (Fulfilled r0) ->
  outcome_of getInventorySummary evs = Some (Fulfilled r1) ->
  outcome_of getStockoutRisks evs = Some (Fulfilled r2) ->
  outcome_of getSupplierPerformance evs = Some (Fulfilled r3) ->
  get (Axios.data r0) (lit "alerts") = Normal a ->
  get (Axios.data r2) (lit "risks") = Normal r ->
  get (Axios.data r3) (lit "suppliers") = Normal s ->
  (forall items, a <> VArr items) ->
  let m := run (mount prev) evs in
  alerts (state m) = a /\ loading (state m) = false /\
  (exists snap, setData_calls m = [NewSnapshot snap]) /\
  (exists e, render toLowerCase ToString toLocaleString (state m) = Throw e) /\
  (nullish a = true ->
   render toLowerCase ToString toLocaleString (state m) = Throw TypeError).
Proof.
  intros H0 H1 H2 H3 Ha Hr Hs Hnot m.
  pose proof (all_fulfilled_state prev evs r0 r1 r2 r3 H0 H1 H2 H3) as H.
  unfold commit_or_catch, snapshot in H. rewrite Ha, Hr, Hs in H. cbn in H.
  injection H as Hst Hcalls. fold m in Hst, Hcalls. rewrite Hst, Hcalls.
  split; [done|]. split; [done|]. split; [eauto|]. split.
  - destruct (render toLowerCase ToString toLocaleString _) as [v|e] eqn:Hv;
      [|eauto].
    exfalso. destruct v as [|n low val ns items rows cards].
    + by apply render_not_placeholder in Hv.
    + apply render_board in Hv as (_ & _ & _ & _ & _ & Hitems & _).
      apply array_map_spec in Hitems as (A & HA & _). cbn in HA.
      by apply (Hnot A).
  - intros Hnull. unfold render. cbn. by destruct a.
Qed.

Lemma alerts_not_an_array_breaks_render_witness :
  let m := run (mount initial)
    [Settle getAlerts (Fulfilled {| Axios.data := VObj [] |});
     Settle getInventorySummary (Fulfilled Scenarios.inventory_response);
     Settle getStockoutRisks (Fulfilled Scenarios.risks_response);
     Settle getSupplierPerformance (Fulfilled Scenarios.suppliers_response)] in
  alerts (state m) = VUndefined /\ loading (state m) = false.
Proof.
  intros m.
  destruct (alerts_not_an_array_breaks_render Scenarios.ascii_toLowerCase
    (fun _ => Throw TypeError) (fun _ => Throw TypeError) initial
    [Settle getAlerts (Fulfilled {| Axios.data := VObj [] |});
     Settle getInventorySummary (Fulfilled Scenarios.inventory_response);
     Settle getStockoutRisks (Fulfilled Scenarios.risks_response);
     Settle getSupplierPerformance (Fulfilled Scenarios.suppliers_response)]
    {| Axios.data := VObj [] |} Scenarios.inventory_response
    Scenarios.risks_response Scenarios.suppliers_response
    VUndefined (VArr [Scenarios.a_risk 2]) (VArr [Scenarios.a_supplier]))
    as (Ha & Hl & _); try reflexivity.
  - intros items. discriminate.
  - split; [exact Ha | exact Hl].
Defined.

End DashboardViewFacts.

(* ===================================================================== *)
(** ** The shell and the page: further properties                         *)
(* ===================================================================== *)

Module ShellFacts.
Import JS App Shell.

(** What the health check does to the shell: the status becomes the body
    when there is one, the tab is left alone. *)
Lemma check_health_effect (outcome : settled Response) (m : Mounted) :
  activeTab (state (fst (check_health outcome m))) = activeTab (state m) /\
  status (state (fst (check_health outcome m))) =
    match outcome with
    | Fulfilled res =>
        match json res with
        | Fulfilled v => v
        | Rejected _ => status (state m)
        end
    | Rejected _ => status (state m)
    end.
Proof.
  unfold check_health, catch_, then_, fetch, res_json, setStatus, console_error.
  destruct outcome as [res|e]; [|done].
  by destruct (json res).
Qed.

(** X19.  Whatever body the health check retrieves, of the documented
    shape or not and whatever the HTTP status, the banner is shown exactly
    when the body is truthy and its [agents_initialized] is falsy.  So a
    body that is an object without that key, an error body for instance,
    shows the banner, and a falsy body shows none. *)
Theorem banner_for_any_body (outcome : settled Response) (v : value) :
  retrieved outcome v ->
  let s := state (fst (check_health outcome App.mount)) in
  status s = v /\
  (banner_visible s = true <->
     truthy v = true /\
     exists a, get v (lit "agents_initialized") = Normal a /\ truthy a = false) /\
  (forall fields, v = VObj fields ->
     own_property (lit "agents_initialized") fields = None ->
     banner_visible s = true) /\
  (truthy v = false -> banner_visible s = false).
Proof.
  intros Hv s. subst s.
  rewrite (AppFacts.check_health_retrieved outcome v App.mount Hv). cbn [fst state].
  unfold banner_visible, banner. cbn [status].
  split; [done|]. split; [|split].
  - destruct (truthy v) eqn:Ht; [|split; [done|by intros [? _]]].
    destruct (get v (lit "agents_initialized")) as [a|e] eqn:Ha; cbn.
    + rewrite negb_true_iff. split; [eauto|].
      by intros (_ & a' & [= <-] & ?).
    + split; [done|]. by intros (_ & a' & ? & _).
  - intros fields -> Hnone. cbn. by rewrite Hnone.
  - by intros ->.
Qed.

Lemma banner_for_any_body_witness :
  banner_visible (state (fst (check_health
    (Fulfilled {| http_status := 500;
                  json := Fulfilled
                    (VObj [(lit "detail", VStr (lit "Internal Server Error"))]) |})
    App.mount))) = true.
Proof.
  destruct (banner_for_any_body
    (Fulfilled {| http_status := 500;
                  json := Fulfilled
                    (VObj [(lit "detail", VStr (lit "Internal Server Error"))]) |})
    (VObj [(lit "detail", VStr (lit "Internal Server Error"))]))
    as (_ & _ & Hobj & _).
  - eexists. split; reflexivity.
  - apply (Hobj [(lit "detail", VStr (lit "Internal Server Error"))]);
      reflexivity.
Defined.

Lemma run_after_page_event (p : Page) (evs : list event) (ev : event) :
  run p (evs ++ [ev]) = step (run p evs) ev.
Proof. unfold run. by rewrite foldl_app. Qed.

Lemma step_active_tab (p : Page) (ev : event) :
  activeTab (state (app (step p ev))) =
    match ev with
    | TabClick t _ => t
    | _ => activeTab (state (app p))
    end.
Proof.
  destruct ev as [t now|o|e|e]; cbn [step]; try done.
  - destruct (tab_eqb t _) eqn:Ht; [|done].
    by destruct t, (activeTab (state (app p))).
  - destruct (health_pending p); [|done]. cbn.
    apply check_health_effect.
Qed.

Lemma step_inactive_view_unmounted (p : Page) (ev : event) :
  inactive_view_unmounted p -> inactive_view_unmounted (step p ev).
Proof.
  unfold inactive_view_unmounted.
  destruct ev as [t now|o|e|e]; cbn [step].
  - destruct (tab_eqb t _) eqn:Ht; [done|]. by destruct t; cbn.
  - destruct (health_pending p); [|done]. cbn.
    by rewrite (proj1 (check_health_effect o (app p))).
  - cbn. by destruct (activeTab _); intros ->.
  - cbn. by destruct (activeTab _); intros ->.
Qed.

(** X20.  The two views are never mounted together: the view of the tab
    that is not active is never mounted.  And while a view is mounted, the
    active tab is the last one clicked, the chat tab when none was. *)
Theorem views_are_never_mounted_together (now : Date) (evs : list event) :
  let p := run (Shell.mount now) evs in
  inactive_view_unmounted p /\
  (chatInterface p = None \/ Shell.dashboard p = None) /\
  (is_Some (chatInterface p) \/ is_Some (Shell.dashboard p) ->
   activeTab (state (app p)) = last_tab evs).
Proof.
  cbv zeta.
  assert (H : inactive_view_unmounted (run (Shell.mount now) evs) /\
              activeTab (state (app (run (Shell.mount now) evs))) = last_tab evs).
  { induction evs as [|ev evs [IH1 IH2]] using rev_ind; [done|].
    rewrite run_after_page_event.
    split; [by apply step_inactive_view_unmounted|].
    rewrite step_active_tab, IH2. unfold last_tab. rewrite foldl_app. cbn.
    by destruct ev. }
  destruct H as [Hin Htab]. split; [done|]. split; [|done].
  unfold inactive_view_unmounted in Hin.
  destruct (activeTab _); auto.
Qed.

Lemma run_keeps_active_tab (between : list event) (p : Page) :
  Forall (fun ev => forall t now, ev <> TabClick t now) between ->
  activeTab (state (app (run p between))) = activeTab (state (app p)).
Proof.
  intros H. revert p. induction H as [|ev between Hev _ IH]; intros p; [done|].
  change (run p (ev :: between)) with (run (step p ev) between).
  rewrite IH, step_active_tab. destruct ev; try done. by destruct (Hev t now).
Qed.

(** X21.  Leaving a tab and coming back to it finds its view as first
    mounted, whatever happened in between: the conversation is gone and the
    transcript is the greeting again, stamped with the time of the return;
    the dashboard is loading again with its four requests open and its
    initial data. *)
Theorem returning_to_a_tab_remounts_its_view
  (p : Page) (between : list event) (t1 t2 : Date) :
  Forall (fun ev => forall t now, ev <> TabClick t now) between ->
  (activeTab (state (app p)) = chat ->
   let p' := run p ([TabClick App.dashboard t1] ++ between ++ [TabClick chat t2]) in
   chatInterface p' = Some (ChatInterface.mount t2) /\ Shell.dashboard p' = None) /\
  (activeTab (state (app p)) = App.dashboard ->
   let p' := run p ([TabClick chat t1] ++ between ++ [TabClick App.dashboard t2]) in
   Shell.dashboard p' = Some (Dashboard.mount Dashboard.initial) /\
   chatInterface p' = None).
Proof.
  intros Hbetween. split; intros Htab p'; subst p'.
  - unfold run. rewrite foldl_app, foldl_app. cbn [foldl].
    fold (run (step p (TabClick App.dashboard t1)) between).
    set (q := run (step p (TabClick App.dashboard t1)) between).
    assert (Hq : activeTab (state (app q)) = App.dashboard).
    { subst q. rewrite (run_keeps_active_tab between _ Hbetween).
      by rewrite step_active_tab. }
    cbn [step]. rewrite Hq. done.
  - unfold run. rewrite foldl_app, foldl_app. cbn [foldl].
    fold (run (step p (TabClick chat t1)) between).
    set (q := run (step p (TabClick chat t1)) between).
    assert (Hq : activeTab (state (app q)) = chat).
    { subst q. rewrite (run_keeps_active_tab between _ Hbetween).
      by rewrite step_active_tab. }
    cbn [step]. rewrite Hq. done.
Qed.

Lemma returning_to_a_tab_remounts_its_view_witness :
  chatInterface (run (Shell.mount 0)
    ([TabClick App.dashboard 5] ++
     [Chat (ChatInterface.Change (lit "hi"));
      Dash (Dashboard.Settle Dashboard.getAlerts (Rejected TypeError))] ++
     [TabClick chat 9]))
  = Some (ChatInterface.mount 9).
Proof.
  apply (returning_to_a_tab_remounts_its_view (Shell.mount 0)
    [Chat (ChatInterface.Change (lit "hi"));
     Dash (Dashboard.Settle Dashboard.getAlerts (Rejected TypeError))] 5 9).
  - repeat constructor; discriminate.
  - reflexivity.
Defined.

Lemma health_outcome_snoc (evs : list event) (ev : event) :
  health_outcome (evs ++ [ev]) =
    match health_outcome evs with
    | Some o => Some o
    | None => match ev with HealthSettles o => Some o | _ => None end
    end.
Proof.
  induction evs as [|ev' evs IH]; cbn; [by destruct ev|].
  by destruct ev'.
Qed.

(** X22.  The status the shell holds, and with it the banner, depends
    only on how the health check settled: it is the retrieved body once
    the check has succeeded and stays unknown otherwise.  Tab clicks, the
    chat, the dashboard and any later settlement have no part in it. *)
Theorem status_depends_only_on_health_check (now : Date) (evs : list event) :
  let p := run (Shell.mount now) evs in
  status (state (app p)) =
    match health_outcome evs with
    | Some (Fulfilled res) =>
        match json res with
        | Fulfilled v => v
        | Rejected _ => VNull
        end
    | _ => VNull
    end /\
  health_pending p = match health_outcome evs with
                     | Some _ => false
                     | None => true
                     end.
Proof.
  cbv zeta. induction evs as [|ev evs [IHs IHp]] using rev_ind; [done|].
  rewrite run_after_page_event, health_outcome_snoc.
  destruct ev as [t t'|o|e|e]; cbn [step].
  - destruct (tab_eqb t _); cbn; rewrite ?IHs, ?IHp;
      by destruct (health_outcome evs).
  - rewrite IHp. destruct (health_outcome evs) as [o'|]; [done|].
    cbn. rewrite (proj2 (check_health_effect o _)), IHs.
    split; [|done]. destruct o as [res|?]; [|done]. by destruct (json res).
  - cbn. rewrite IHs, IHp. by destruct (health_outcome evs).
  - cbn. rewrite IHs, IHp. by destruct (health_outcome evs).
Qed.

End ShellFacts.
